(** * Functions emulator: trigger registry, discovery, request router and
      log decoder of [src/emulator/functionsEmulator.ts]

    A shallow embedding of the parts of [FunctionsEmulator] that decide the
    routing and registration behaviour of the emulator:

    - JavaScript strings are sequences of UTF-16 code units ([list N]);
      [js "..."] turns an ASCII literal into such a sequence.
    - [this.triggers] is a plain object used as a dictionary.  It is
      modelled with its own properties (a [gmap]) and its prototype:
      reading a name that it does not own finds the members of
      [Object.prototype] ([constructor], [toString], ...), and assigning to
      [__proto__] replaces the prototype instead of adding a property.
      [this.multicastTriggers] is a finite map: its keys hold a [:] and
      are never inherited names.
    - Rejected promises and thrown exceptions are results of type [Result];
      logging, HTTP responses, collaborator calls and process control are
      recorded as traces of [Effect]s.
    - Code that lives in other files of the repository ([EmulatorLog.fromJSON],
      [getFunctionService], [Constants], the emulator registry, the HTTP
      client) is taken as a parameter of the section that uses it.

    Part I holds the definitions, Part II the theorems. *)

From Stdlib Require Import Ascii String NArith Strings.Byte.
From stdpp Require Import base option list numbers countable gmap pretty.

Set Default Proof Using "Type".
Set Warnings "-register-all".

(** * Part I: definitions *)

(** ** JavaScript strings *)

Abbreviation jsstring := (list N).

Module JS.

(** An ASCII literal as a sequence of code units. *)
Definition js (s : string) : jsstring :=
  N_of_ascii <$> list_ascii_of_string s.
Arguments js : simpl never.

Definition LF : N := 10.
Definition CR : N := 13.
Definition LS : N := 8232.
Definition PS : N := 8233.
Definition SLASH : N := 47.
Definition QUOTE : N := 34.

(** The bytes of an ASCII text. *)
Definition bytes (s : jsstring) : list byte :=
  (fun c => default x00 (Byte.of_N c)) <$> s.

(** [s.startsWith(p)] *)
Fixpoint startsWith (s p : jsstring) {struct p} : bool :=
  match p, s with
  | [], _ => true
  | _ :: _, [] => false
  | c :: p', d :: s' => bool_decide (c = d) && startsWith s' p'
  end.

(** [s.split(sep)] for a one-character separator: the result is never
    empty, [''.split(sep)] is [['']]. *)
Fixpoint split (sep : N) (s : jsstring) : list jsstring :=
  match s with
  | [] => [[]]
  | c :: s' =>
      if decide (c = sep) then [] :: split sep s'
      else match split sep s' with
           | l :: ls => (c :: l) :: ls
           | [] => [[c]]
           end
  end.

(** [lines.slice(0, -1)]: all elements but the last. *)
Definition slice_but_last {A} (l : list A) : list A := removelast l.

(** [a[a.length - 1]] on an array of strings.  The arrays it is applied to
    are results of [split], which are never empty. *)
Definition last_elem (l : list jsstring) : jsstring := List.last l [].

(** Truthiness of a string value that may be [undefined]. *)
Definition truthy (s : option jsstring) : bool :=
  match s with
  | Some (_ :: _) => true
  | _ => false
  end.

(** *** Pieces of regular expressions

    Each matcher consumes a prefix of the input and returns what it matched
    and the rest, or [None] when it cannot match. *)

(** A literal. *)
Fixpoint lit (p s : jsstring) {struct p} : option jsstring :=
  match p, s with
  | [], _ => Some s
  | _ :: _, [] => None
  | c :: p', d :: s' => if decide (c = d) then lit p' s' else None
  end.

(** The longest run of characters other than [/]. *)
Fixpoint not_slash_run (s : jsstring) : jsstring * jsstring :=
  match s with
  | [] => ([], [])
  | c :: s' =>
      if decide (c = SLASH) then ([], s)
      else let '(run, rest) := not_slash_run s' in (c :: run, rest)
  end.

(** [[^/]+] followed by a literal that starts with [/]: greedy matching
    takes the longest run, and giving characters back cannot help because
    the next character would then not be [/]; at least one character is
    required. *)
Definition plus_not_slash (s : jsstring) : option (jsstring * jsstring) :=
  match not_slash_run s with
  | ([], _) => None
  | (run, rest) => Some (run, rest)
  end.

(** What [.] matches: everything but the four line terminators. *)
Definition dot (c : N) : bool :=
  negb (bool_decide (c = LF) || bool_decide (c = CR)
        || bool_decide (c = LS) || bool_decide (c = PS)).

(** The last group and the anchor, a [/] followed by [.] any number of times
    and then [$] without the [m] flag: a [/] and then only [.] characters up
    to the end of the input. *)
Definition slash_dot_star_end (s : jsstring) : option jsstring :=
  match s with
  | c :: rest =>
      if decide (c = SLASH) then
        if forallb dot rest then Some s else None
      else None
  | [] => None
  end.

End JS.

Import JS.

(** ** Data model *)

(** The members of [EmulatedTriggerDefinition] that the emulator reads.
    [httpsTrigger] and [schedule] are only tested for truthiness.  The
    emulator itself never reads [service]: it asks [getFunctionService],
    a parameter of the sections below; the field is there for the
    [getFunctionService] of the examples. *)
Record EventTrigger := {
  resource : jsstring;
  eventType : jsstring;
  service : jsstring;
}.

Record EmulatedTriggerDefinition := {
  name : jsstring;
  entryPoint : jsstring;
  httpsTrigger : bool;
  eventTrigger : option EventTrigger;
  schedule : bool;
  labels : list (jsstring * jsstring);
}.

(** [interface EmulatedTriggerRecord { def; enabled }] *)
Record EmulatedTriggerRecord := {
  def : EmulatedTriggerDefinition;
  enabled : bool;
}.

(** [interface TriggerDescription]; [ignored] is left [undefined] for HTTPS
    triggers. *)
Record TriggerDescription := {
  td_name : jsstring;
  td_entryPoint : jsstring;
  td_type : jsstring;
  td_labels : list (jsstring * jsstring);
  td_details : option jsstring;
  td_ignored : option bool;
}.

(** The fields of an [EmulatorLog] that the emulator inspects. *)
Record EmulatorLog := {
  level : jsstring;
  type : jsstring;
  text : jsstring;
}.

(** [new EmulatorLog("SYSTEM", "runtime-status", "killed")] *)
Definition killedLog : EmulatorLog :=
  {| level := js "SYSTEM"; type := js "runtime-status"; text := js "killed" |}.

Definition FATAL : jsstring := js "FATAL".

(** Exceptions and promise rejections that the modelled code produces.
    [ErrorBundle] is the object literal [{ code, body }] that
    [handleBackgroundTrigger] rejects with; [RejectedUndefined] is a bare
    [Promise.reject()]. *)
Inductive Error :=
| FirebaseError (message : jsstring)
| SyntaxError
| TypeError
| RejectedUndefined
| RequestError
| WaitForLogError
| ErrorBundle (code : N) (body : option jsstring).

Inductive Result (A : Type) :=
| Ok (a : A)
| Throw (e : Error).
Arguments Ok {A} a.
Arguments Throw {A} e.

(** The JSON document posted to the database emulator. *)
Record DatabaseBundle := {
  db_name : jsstring;
  db_path : jsstring;
  db_event : jsstring;
  db_topic : jsstring;
}.

Inductive RequestData :=
| DatabaseData (bundle : DatabaseBundle)
| FirestoreData (trigger : option EventTrigger).

(** The arguments of [api.request]. *)
Record ApiRequest := {
  api_method : jsstring;
  api_path : jsstring;
  api_origin : jsstring;
  api_data : RequestData;
}.

Inductive EmulatedTriggerType := BACKGROUND | HTTPS.

Inductive ResponseBody :=
| NoBody
| TextBody (body : jsstring)
| JsonAcknowledged
| JsonMulticastAcknowledged.

(** Observable actions, in the order in which the code performs them. *)
Inductive Effect :=
| LoggerDebug (what : jsstring)
| LogWarnUndefinedEventTrigger (triggerName : jsstring)
| LogWarnMalformedResource (triggerName res : jsstring)
| LogWarnSentinelNamespace
| LogWarnErrorAddingTrigger
| LogDebugUnsupportedTrigger (d : EmulatedTriggerDefinition)
| LogSuccessInitialized (d : TriggerDescription)
| LogBulletIgnored (d : TriggerDescription)
| LogDebugIgnoringBackgroundTrigger (url : jsstring)
| LogDebugAccepted (url triggerId : jsstring)
| LogDebugAcceptedMulticast (url triggerId : jsstring)
| ApiCall (req : ApiRequest)
| PubsubAddTrigger (topic subscriber : jsstring)
| WorkerPoolRefresh
| InvokeDiagnosticRuntime
| StartFunctionRuntime (triggerId : jsstring) (kind : EmulatedTriggerType)
| Track (service : jsstring)
| Respond (status : N) (body : ResponseBody)
| SendStatus (status : N)
| SendStatusUndefined
| Emit (log : EmulatorLog)
| Kill.

#[global] Instance EventTrigger_eq_dec : EqDecision EventTrigger.
Proof. solve_decision. Defined.
#[global] Instance EmulatedTriggerDefinition_eq_dec :
  EqDecision EmulatedTriggerDefinition.
Proof. solve_decision. Defined.
#[global] Instance EmulatedTriggerRecord_eq_dec :
  EqDecision EmulatedTriggerRecord.
Proof. solve_decision. Defined.
#[global] Instance TriggerDescription_eq_dec : EqDecision TriggerDescription.
Proof. solve_decision. Defined.
#[global] Instance EmulatorLog_eq_dec : EqDecision EmulatorLog.
Proof. solve_decision. Defined.
#[global] Instance Error_eq_dec : EqDecision Error.
Proof. solve_decision. Defined.
#[global] Instance DatabaseBundle_eq_dec : EqDecision DatabaseBundle.
Proof. solve_decision. Defined.
#[global] Instance RequestData_eq_dec : EqDecision RequestData.
Proof. solve_decision. Defined.
#[global] Instance ApiRequest_eq_dec : EqDecision ApiRequest.
Proof. solve_decision. Defined.
#[global] Instance EmulatedTriggerType_eq_dec : EqDecision EmulatedTriggerType.
Proof. solve_decision. Defined.
#[global] Instance ResponseBody_eq_dec : EqDecision ResponseBody.
Proof. solve_decision. Defined.
#[global] Instance Effect_eq_dec : EqDecision Effect.
Proof. solve_decision. Defined.

(** ** Trigger registry *)

Module Registry.

(** [this.triggers], created by the object literal [{}]: the records it
    owns, by name, and its prototype.  The prototype is [Object.prototype]
    ([None]) until an assignment to [__proto__] makes a record object the
    prototype ([Some record]); the prototype of a record object is
    [Object.prototype]. *)
Record TriggersObject := {
  own : gmap (list N) EmulatedTriggerRecord;
  prototype : option EmulatedTriggerRecord;
}.

Abbreviation triggers_t := TriggersObject.

(** [triggers !! n] is the record that the object owns under [n]. *)
#[global] Instance triggers_lookup
    : Lookup (list N) EmulatedTriggerRecord triggers_t :=
  fun n triggers => own triggers !! n.

(** The object literals [{}] and [{ n: record }]. *)
#[global] Instance triggers_empty : Empty triggers_t :=
  {| own := ∅; prototype := None |}.

#[global] Instance triggers_singleton
    : SingletonM (list N) EmulatedTriggerRecord triggers_t :=
  fun n record => {| own := {[ n := record ]}; prototype := None |}.

(** The names of the properties of [Object.prototype].  All are methods but
    [__proto__], an accessor whose getter returns the prototype of the
    object and whose setter replaces it. *)
Definition Object_prototype : list jsstring :=
  [js "constructor"; js "__defineGetter__"; js "__defineSetter__";
   js "hasOwnProperty"; js "__lookupGetter__"; js "__lookupSetter__";
   js "isPrototypeOf"; js "propertyIsEnumerable"; js "toString";
   js "valueOf"; js "__proto__"; js "toLocaleString"].

(** What the code can tell of a value read from [this.triggers]: a falsy
    value ([undefined], [false]); a record; or another truthy value (a
    method of [Object.prototype], [Object.prototype] itself, a trigger
    definition, [true]), whose [def] and [enabled] are [undefined]. *)
Inductive Slot :=
| IsFalsy
| IsRecord (record : EmulatedTriggerRecord)
| IsOther.

#[global] Instance Slot_eq_dec : EqDecision Slot.
Proof. solve_decision. Defined.

(** [this.triggers[n]]: an own property first, then the prototype chain.
    A record object that has become the prototype contributes its members
    [def] and [enabled], and is itself what [__proto__] reads. *)
Definition read (triggers : triggers_t) (n : jsstring) : Slot :=
  match own triggers !! n with
  | Some record => IsRecord record
  | None =>
      match prototype triggers with
      | Some p =>
          if bool_decide (n = js "__proto__") then IsRecord p
          else if bool_decide (n = js "def") then IsOther
          else if bool_decide (n = js "enabled") then
            if enabled p then IsOther else IsFalsy
          else if bool_decide (n ∈ Object_prototype) then IsOther
          else IsFalsy
      | None => if bool_decide (n ∈ Object_prototype) then IsOther else IsFalsy
      end
  end.

(** [getTriggerDefinitionByName]: [record.def], which is [undefined]
    ([None]) when the value read is truthy but not a record. *)
Definition getTriggerDefinitionByName (triggers : triggers_t)
    (triggerName : jsstring) : Result (option EmulatedTriggerDefinition) :=
  match read triggers triggerName with
  | IsFalsy => Throw (FirebaseError (js "No trigger with name " ++ triggerName))
  | IsRecord record => Ok (Some (def record))
  | IsOther => Ok None
  end.

(** [addTriggerRecord]: [this.triggers[def.name] = { def, enabled: true }].
    The assignment adds or replaces an own property, except for the name
    [__proto__] (when the object owns no property of that name), where the
    setter inherited from [Object.prototype] makes the new record the
    prototype of [this.triggers]. *)
Definition addTriggerRecord (triggers : triggers_t)
    (d : EmulatedTriggerDefinition) : triggers_t :=
  let record := {| def := d; enabled := true |} in
  if bool_decide (name d = js "__proto__")
     && bool_decide (own triggers !! name d = None)
  then {| own := own triggers; prototype := Some record |}
  else {| own := <[name d := record]> (own triggers);
          prototype := prototype triggers |}.

(** [setTriggersForTesting] *)
Definition setTriggersForTesting (triggers : triggers_t)
    (ds : list EmulatedTriggerDefinition) : triggers_t :=
  foldl addTriggerRecord triggers ds.

(** [getTriggerDefinitions]: [Object.values] lists the own properties. *)
Definition getTriggerDefinitions (triggers : triggers_t)
    : list EmulatedTriggerDefinition :=
  (fun kv => def kv.2) <$> map_to_list (own triggers).

(** [disableBackgroundTriggers], over the own properties; the "temporarily
    disabled" log lines are not recorded. *)
Definition disableBackgroundTriggers (triggers : triggers_t) : triggers_t :=
  {| own :=
       (fun record =>
          match eventTrigger (def record) with
          | Some _ => {| def := def record; enabled := false |}
          | None => record
          end) <$> own triggers;
     prototype := prototype triggers |}.

End Registry.

Import Registry.

(** ** [Buffer.prototype.toString()]

    [buf.toString()] decodes the bytes of one chunk as UTF-8; a byte sequence
    that is not well formed, and a sequence that the end of the buffer cuts
    short, decode to U+FFFD.  The decoder is the one of the Encoding
    standard; its state is the code point under construction, the number of
    continuation bytes still needed and the range allowed for the next
    byte. *)

Module Utf8.

Record Pending := {
  code_point : N;
  bytes_needed : N;
  lower_boundary : N;
  upper_boundary : N;
}.

Definition REPLACEMENT : N := 65533.

Definition in_range (lo hi b : N) : bool := (lo <=? b)%N && (b <=? hi)%N.

(** A byte read when no sequence is in progress. *)
Definition start (b : N) : list N * option Pending :=
  if in_range 0 127 b then ([b], None)
  else if in_range 194 223 b then
    ([], Some {| code_point := N.land b 31; bytes_needed := 1;
                 lower_boundary := 128; upper_boundary := 191 |})
  else if in_range 224 239 b then
    ([], Some {| code_point := N.land b 15; bytes_needed := 2;
                 lower_boundary := if (b =? 224)%N then 160 else 128;
                 upper_boundary := if (b =? 237)%N then 159 else 191 |})
  else if in_range 240 244 b then
    ([], Some {| code_point := N.land b 7; bytes_needed := 3;
                 lower_boundary := if (b =? 240)%N then 144 else 128;
                 upper_boundary := if (b =? 244)%N then 143 else 191 |})
  else ([REPLACEMENT], None).

(** One byte: the code points it completes and the new state.  A byte that
    cannot continue the sequence in progress ends it with U+FFFD and is then
    read again as the start of a sequence. *)
Definition step (st : option Pending) (b : N) : list N * option Pending :=
  match st with
  | None => start b
  | Some p =>
      if in_range (lower_boundary p) (upper_boundary p) b then
        let cp := N.lor (N.shiftl (code_point p) 6) (N.land b 63) in
        if (bytes_needed p =? 1)%N then ([cp], None)
        else ([], Some {| code_point := cp;
                          bytes_needed := bytes_needed p - 1;
                          lower_boundary := 128; upper_boundary := 191 |})
      else let '(out, st') := start b in (REPLACEMENT :: out, st')
  end.

(** The whole buffer; a sequence still in progress at the end of the buffer
    becomes U+FFFD. *)
Fixpoint decode (st : option Pending) (bytes : list N) : list N :=
  match bytes with
  | [] => match st with None => [] | Some _ => [REPLACEMENT] end
  | b :: bytes' => let '(out, st') := step st b in out ++ decode st' bytes'
  end.

(** The state of the decoder after some bytes: [None] when they end at the
    end of a character. *)
Fixpoint state_after (st : option Pending) (bytes : list N) : option Pending :=
  match bytes with
  | [] => st
  | b :: bytes' => state_after (step st b).2 bytes'
  end.

(** A chunk ends at a character boundary when no sequence is in progress
    after its last byte. *)
Definition ends_at_boundary (buf : list byte) : Prop :=
  state_after None (Byte.to_N <$> buf) = None.

(** A code point as UTF-16 code units. *)
Definition utf16 (cp : N) : jsstring :=
  if (cp <? 65536)%N then [cp]
  else let c := (cp - 65536)%N in
       [(55296 + N.shiftr c 10)%N; (56320 + N.land c 1023)%N].

Definition toString (buf : list byte) : jsstring :=
  decode None (Byte.to_N <$> buf) ≫= utf16.

End Utf8.

(** ** The log decoder: [onData] *)

Module LogDecoder.

Section OnData.

(** [buf.toString()] and [EmulatorLog.fromJSON]. *)
Variable toString : list byte -> jsstring.
Variable fromJSON : jsstring -> EmulatorLog.

(** The body of the [forEach] callback: the parsed record is emitted, and a
    [FATAL] record is followed by the synthetic [killed] event and
    [runtime.kill()]. *)
Definition onLine (line : jsstring) : list Effect :=
  let log := fromJSON line in
  Emit log ::
  (if bool_decide (level log = FATAL) then [Emit killedLog; Kill] else []).

(** [onData(runtime, emitter, buffer, buf)]: the effects on [emitter] and
    [runtime], and the new [buffer.value]. *)
Definition onData (buffer : jsstring) (buf : list byte)
    : list Effect * jsstring :=
  let value := buffer ++ toString buf in
  let lines := split LF value in
  let effects :=
    if (1 <? length lines)%nat then slice_but_last lines ≫= onLine else [] in
  (effects, last_elem lines).

(** The [data] events of one stream, delivered in order to the same
    buffer. *)
Fixpoint feed (buffer : jsstring) (chunks : list (list byte))
    : list Effect * jsstring :=
  match chunks with
  | [] => ([], buffer)
  | buf :: chunks' =>
      let '(effects, buffer') := onData buffer buf in
      let '(effects', buffer'') := feed buffer' chunks' in
      (effects ++ effects', buffer'')
  end.

(** A stream starts with [{ value: "" }]. *)
Definition run (chunks : list (list byte)) : list Effect :=
  (feed [] chunks).1.

(** The text of a stream: the chunks decoded one by one. *)
Definition decoded (chunks : list (list byte)) : jsstring :=
  chunks ≫= toString.

(** The lines of a text that a newline has completed. *)
Definition completed_lines (t : jsstring) : list jsstring :=
  slice_but_last (split LF t).

Definition kills (effects : list Effect) : nat :=
  length (filter (fun e => e = Kill) effects).

Definition killed_events (effects : list Effect) : nat :=
  length (filter (fun e => e = Emit killedLog) effects).

End OnData.

(** The JSON text of a record of severity [FATAL]. *)
Definition fatalLine : jsstring :=
  js "{" ++ [QUOTE] ++ js "level" ++ [QUOTE] ++ js ":"
    ++ [QUOTE] ++ js "FATAL" ++ [QUOTE] ++ js ","
    ++ [QUOTE] ++ js "type" ++ [QUOTE] ++ js ":"
    ++ [QUOTE] ++ js "runtime-error" ++ [QUOTE] ++ js ","
    ++ [QUOTE] ++ js "text" ++ [QUOTE] ++ js ":"
    ++ [QUOTE] ++ js "boom" ++ [QUOTE] ++ js "}".

(** A parser for the examples: [fatalLine] is read as the record it
    describes; any other line is kept as the text of a [USER] record. *)
Definition exampleFromJSON (line : jsstring) : EmulatorLog :=
  if bool_decide (line = fatalLine)
  then {| level := FATAL; type := js "runtime-error"; text := js "boom" |}
  else {| level := js "USER"; type := js "function-log"; text := line |}.

End LogDecoder.

(** ** The emulator object *)

(** A parsed JSON document ([JSON.parse] is a parameter of the handlers);
    a number is kept as its decimal rendering, and an object lists its own
    properties, each name once. *)
Inductive json :=
| JNull
| JBool (b : bool)
| JNumber (rendering : jsstring)
| JString (s : jsstring)
| JArray (elements : list json)
| JObject (members : list (jsstring * json)).

(** The members of an [express.Request] that the handlers read. *)
Record Request := {
  method : jsstring;
  url : jsstring;
  params_project_id : jsstring;
  params_trigger_name : jsstring;
  rawBody : list byte;
}.

(** The closures handed to [workQueue.submit], with the variables they
    capture. *)
Inductive Task :=
| BackgroundTask (req : Request) (projectId triggerId : jsstring) (proto : json)
| MulticastTask (req : Request) (projectId triggerId : jsstring) (proto : json)
| HttpsTask (req : Request).

(** [FunctionsEmulatorArgs] *)
Record EmulatorArgs := {
  projectId : jsstring;
  host : option jsstring;
  port : option N;
}.

(** The fields of [FunctionsEmulator] that change; [workQueue] is the
    pending sequence of the work queue. *)
Record Emulator := {
  args : EmulatorArgs;
  triggers : triggers_t;
  multicastTriggers : gmap (list N) (list jsstring);
  workQueue : list Task;
}.

(** [this.args.projectId] *)
Definition args_projectId (em : Emulator) : jsstring := projectId (args em).

Definition set_triggers (f : triggers_t -> triggers_t) (em : Emulator)
    : Emulator :=
  {| args := args em; triggers := f (triggers em);
     multicastTriggers := multicastTriggers em; workQueue := workQueue em |}.

Definition set_multicastTriggers
    (f : gmap (list N) (list jsstring) -> gmap (list N) (list jsstring))
    (em : Emulator) : Emulator :=
  {| args := args em; triggers := triggers em;
     multicastTriggers := f (multicastTriggers em);
     workQueue := workQueue em |}.

Definition set_workQueue (f : list Task -> list Task) (em : Emulator)
    : Emulator :=
  {| args := args em; triggers := triggers em;
     multicastTriggers := multicastTriggers em; workQueue := f (workQueue em) |}.

(** *** Methods as state transformers

    A method takes the emulator to a result (a value or an exception), the
    emulator it leaves behind and the effects it performed.  An exception
    keeps the changes made before it. *)

Definition M (A : Type) : Type := Emulator -> Result A * Emulator * list Effect.

#[global] Instance M_ret : MRet M := fun A a em => (Ok a, em, []).

#[global] Instance M_bind : MBind M := fun A B k m em =>
  match m em with
  | (Ok a, em', out) =>
      let '(r, em'', out') := k a em' in (r, em'', out ++ out')
  | (Throw e, em', out) => (Throw e, em', out)
  end.

Definition reject {A} (e : Error) : M A := fun em => (Throw e, em, []).
Definition effect (e : Effect) : M unit := fun em => (Ok tt, em, [e]).
Definition get : M Emulator := fun em => (Ok em, em, []).
Definition modify (f : Emulator -> Emulator) : M unit :=
  fun em => (Ok tt, f em, []).

(** [p.catch((err) => { handler; throw err; })] *)
Definition onRejection {A} (m : M A) (handler : M unit) : M A := fun em =>
  match m em with
  | (Throw e, em', out) =>
      let '(_, em'', out') := handler em' in (Throw e, em'', out ++ out')
  | ok => ok
  end.

(** [for (const x of xs) { body }] with an accumulator. *)
Fixpoint forOf {A B} (xs : list A) (body : A -> B -> M B) (acc : B) : M B :=
  match xs with
  | [] => mret acc
  | x :: xs' => acc' ← body x acc; forOf xs' body acc'
  end.

(** [this.addTriggerRecord(def)] *)
Definition addTriggerRecordM (d : EmulatedTriggerDefinition) : M unit :=
  modify (set_triggers (fun t => addTriggerRecord t d)).

(** Modelled from the spec: [WorkQueue.submit] (workQueue.ts is not among the
    sources).  The queue "holds submitted tasks in a pending ordered
    sequence"; submitting appends the task to that sequence and runs
    nothing. *)
Definition submit (task : Task) : M unit :=
  modify (set_workQueue (fun q => q ++ [task])).

(** A computation that leaves the trigger registry, the arguments and the
    work queue alone. *)
Definition stable {A} (m : M A) : Prop :=
  forall em r em' out, m em = (r, em', out) ->
    triggers em' = triggers em /\ args em' = args em
    /\ workQueue em' = workQueue em.

(** A computation that never rejects. *)
Definition total {A} (m : M A) : Prop :=
  forall em, exists a em' out, m em = (Ok a, em', out).

(** ** Trigger discovery: [loadTriggers] and the [add...Trigger] methods *)

Module Discovery.

(** The entries of [Constants] (constants.ts) that discovery reads. *)
Record ConstantsTable := {
  SERVICE_FIRESTORE : jsstring;
  SERVICE_REALTIME_DATABASE : jsstring;
  SERVICE_PUBSUB : jsstring;
  SERVICE_AUTH : jsstring;
  getServiceName : jsstring -> jsstring;
  getDefaultHost : jsstring;
  getDefaultPort : N;
}.

(** What discovery asks of its surroundings: which collaborator emulators
    the [EmulatorRegistry] knows (with the host string of their info),
    whether an [api.request] is fulfilled, and whether
    [pubsubEmulator.addTrigger] returns. *)
Record World := {
  registry_database : option jsstring;
  registry_firestore : option jsstring;
  registry_pubsubPort : option N;
  api_request : ApiRequest -> bool;
  pubsub_addTrigger : jsstring -> jsstring -> bool;
}.

(** [DATABASE_PATH_PATTERN.exec(s)] for the pattern
    [^projects/[^/]+/instances/([^/]+)/refs] followed by the group
    slash-dot-star and [$]: the match array (the whole match and the two
    groups) or [null]. *)
Definition DATABASE_PATH_PATTERN_exec (s : jsstring) : option (list jsstring) :=
  r ← lit (js "projects/") s;
  '(_, r) ← plus_not_slash r;
  r ← lit (js "/instances/") r;
  '(instance, r) ← plus_not_slash r;
  r ← lit (js "/refs") r;
  path ← slash_dot_star_end r;
  Some [s; instance; path].

Section Discovery.

Variable Constants : ConstantsTable.
Variable getFunctionService : EmulatedTriggerDefinition -> jsstring.
Variable getFunctionRegion : EmulatedTriggerDefinition -> jsstring.
Variable W : World.

(** [api.request(...)]: a promise that is fulfilled or rejected. *)
Definition request (r : ApiRequest) : M unit :=
  effect (ApiCall r);;
  if api_request W r then mret tt else reject RequestError.

(** [.then(() => true).catch((err) => { log WARN; throw err; })] *)
Definition trueOrRethrow (m : M unit) : M bool :=
  onRejection (m;; mret true) (effect LogWarnErrorAddingTrigger).

Definition addRealtimeDatabaseTrigger (projectId : jsstring)
    (definition : EmulatedTriggerDefinition) : M bool :=
  match registry_database W with
  | None => mret false
  | Some databaseEmu =>
      match eventTrigger definition with
      | None =>
          effect (LogWarnUndefinedEventTrigger (name definition));;
          reject RejectedUndefined
      | Some et =>
          match DATABASE_PATH_PATTERN_exec (resource et) with
          | Some [_; instance; path] =>
              let bundle :=
                {| db_name := js "projects/" ++ projectId
                                ++ js "/locations/_/functions/" ++ name definition;
                   db_path := path;
                   db_event := eventType et;
                   db_topic := js "projects/" ++ projectId
                                 ++ js "/topics/" ++ name definition |} in
              effect (LoggerDebug (js "addRealtimeDatabaseTrigger"));;
              let setTriggersPath := js "/.settings/functionTriggers.json" in
              setTriggersPath ←
                (if bool_decide (instance ≠ [])
                 then mret (setTriggersPath ++ js "?ns=" ++ instance)
                 else effect LogWarnSentinelNamespace;; mret setTriggersPath);
              trueOrRethrow
                (request {| api_method := js "POST";
                            api_path := setTriggersPath;
                            api_origin := js "http://" ++ databaseEmu;
                            api_data := DatabaseData bundle |})
          | _ =>
              (* result === null || result.length !== 3 *)
              effect (LogWarnMalformedResource (name definition) (resource et));;
              reject RejectedUndefined
          end
      end
  end.

Definition addFirestoreTrigger (projectId : jsstring)
    (definition : EmulatedTriggerDefinition) : M bool :=
  match registry_firestore W with
  | None => mret false
  | Some firestoreEmu =>
      effect (LoggerDebug (js "addFirestoreTrigger"));;
      trueOrRethrow
        (request {| api_method := js "PUT";
                    api_path := js "/emulator/v1/projects/" ++ projectId
                                  ++ js "/triggers/" ++ name definition;
                    api_origin := js "http://" ++ firestoreEmu;
                    api_data := FirestoreData (eventTrigger definition) |})
  end.

Definition addPubsubTrigger (projectId : jsstring)
    (definition : EmulatedTriggerDefinition) : M bool :=
  match registry_pubsubPort W with
  | None | Some 0%N => mret false
  | Some _ =>
      match eventTrigger definition with
      | None => mret false
      | Some et =>
          effect (LoggerDebug (js "addPubsubTrigger"));;
          let topic :=
            if schedule definition
            then js "firebase-schedule-" ++ name definition
            else last_elem (split SLASH (resource et)) in
          (* try { await addTrigger(...); return true; } catch { return false; } *)
          effect (PubsubAddTrigger topic (name definition));;
          mret (pubsub_addTrigger W topic (name definition))
      end
  end.

Definition addAuthTrigger (projectId : jsstring)
    (definition : EmulatedTriggerDefinition) : M bool :=
  effect (LoggerDebug (js "addAuthTrigger"));;
  let eventTriggerId :=
    projectId ++ js ":" ++
    match eventTrigger definition with
    | Some et => eventType et
    | None => js "undefined"
    end in
  modify (set_multicastTriggers (fun m =>
    let triggers := default [] (m !! eventTriggerId) in
    <[eventTriggerId := triggers ++ [entryPoint definition]]> m));;
  mret true.

(** [getInfo()]: [||] replaces a missing or empty host and a missing or
    zero port. *)
Definition getInfo (a : EmulatorArgs) : jsstring * N :=
  (match host a with Some (c :: h) => c :: h | _ => getDefaultHost Constants end,
   match port a with
   | Some p => if bool_decide (p = 0%N) then getDefaultPort Constants else p
   | None => getDefaultPort Constants
   end).

(** [getHttpFunctionUrl].  A number is an [N], which stands for the
    non-negative integers below [10^21]: the template literal renders
    these with all their digits (and larger numbers, which no port is, in
    exponent form). *)
Definition getHttpFunctionUrl (host : jsstring) (port : N)
    (projectId name region : jsstring) : jsstring :=
  js "http://" ++ host ++ js ":" ++ js (pretty port) ++ js "/" ++ projectId
    ++ js "/" ++ region ++ js "/" ++ name.

(** The [switch (service)] of [loadTriggers]. *)
Definition registerWithCollaborator (projectId : jsstring)
    (definition : EmulatedTriggerDefinition) : M bool :=
  let service := getFunctionService definition in
  if bool_decide (service = SERVICE_FIRESTORE Constants) then
    addFirestoreTrigger projectId definition
  else if bool_decide (service = SERVICE_REALTIME_DATABASE Constants) then
    addRealtimeDatabaseTrigger projectId definition
  else if bool_decide (service = SERVICE_PUBSUB Constants) then
    addPubsubTrigger projectId definition
  else if bool_decide (service = SERVICE_AUTH Constants) then
    addAuthTrigger projectId definition
  else
    effect (LogDebugUnsupportedTrigger definition);; mret false.

(** The body of [for (const definition of toSetup)]. *)
Definition setupTrigger (definition : EmulatedTriggerDefinition)
    (triggerResults : list TriggerDescription) : M (list TriggerDescription) :=
  em ← get;
  triggerResults ←
    (if httpsTrigger definition then
       let region := getFunctionRegion definition in
       let '(host, port) := getInfo (args em) in
       let url := getHttpFunctionUrl host port (projectId (args em))
                    (name definition) region in
       mret (triggerResults ++
               [{| td_name := name definition;
                   td_entryPoint := entryPoint definition;
                   td_type := js "http";
                   td_labels := labels definition;
                   td_details := Some url;
                   td_ignored := None |}])
     else
       added ← registerWithCollaborator (projectId (args em)) definition;
       mret (triggerResults ++
               [{| td_name := name definition;
                   td_entryPoint := entryPoint definition;
                   td_type := getServiceName Constants
                                (getFunctionService definition);
                   td_labels := labels definition;
                   td_details := None;
                   td_ignored := Some (negb added) |}]));
  addTriggerRecordM definition;;
  mret triggerResults.

(** [triggerDefinitions.filter((definition) => !this.triggers[definition.name])]:
    a definition is kept when the value read under its name is falsy, so a
    definition whose name the object inherits is dropped like one that has
    a record. *)
Definition toSetup (em : Emulator)
    (triggerDefinitions : list EmulatedTriggerDefinition)
    : list EmulatedTriggerDefinition :=
  filter (fun definition => read (triggers em) (name definition) = IsFalsy)
    triggerDefinitions.

Definition is_ignored (r : TriggerDescription) : bool :=
  match td_ignored r with Some true => true | _ => false end.

(** [loadTriggers()].  [parsed] is what awaiting the [triggers-parsed] log of
    the diagnostic runtime gives: the trigger definitions, or a rejection. *)
Definition loadTriggers (parsed : Result (list EmulatedTriggerDefinition))
    : M unit :=
  effect WorkerPoolRefresh;;
  effect InvokeDiagnosticRuntime;;
  triggerDefinitions ←
    match parsed with Ok ds => mret ds | Throw e => reject e end;
  em ← get;
  triggerResults ← forOf (toSetup em triggerDefinitions) setupTrigger [];
  forOf (List.filter (fun r => negb (is_ignored r)) triggerResults)
    (fun r _ => effect (LogSuccessInitialized r)) tt;;
  forOf (List.filter is_ignored triggerResults)
    (fun r _ => effect (LogBulletIgnored r)) tt.

End Discovery.

(** The [getFunctionService] of the examples: the service named by the event
    trigger. *)
Definition exampleService (d : EmulatedTriggerDefinition) : jsstring :=
  match eventTrigger d with
  | Some et => service et
  | None => js "unknown"
  end.

(** Handed [undefined], that [getFunctionService] throws when it reads
    [eventTrigger]. *)
Definition exampleService_undefined : Result jsstring := Throw TypeError.

Definition exampleRegion (d : EmulatedTriggerDefinition) : jsstring :=
  js "us-central1".

(** The values of the service constants in the examples. *)
Definition exampleConstants : ConstantsTable :=
  {| SERVICE_FIRESTORE := js "firestore.googleapis.com";
     SERVICE_REALTIME_DATABASE := js "firebaseio.com";
     SERVICE_PUBSUB := js "pubsub.googleapis.com";
     SERVICE_AUTH := js "firebaseauth.googleapis.com";
     getServiceName := fun service => service;
     getDefaultHost := js "localhost";
     getDefaultPort := 5001 |}.

End Discovery.

(** ** The request router: handlers of [createHubServer] and
       [handleBackgroundTrigger] *)

Module Hub.

(** What the listener of [worker.onLogs] and [worker.waitForDone()] observe
    of the worker, in order. *)
Inductive WorkerEvent :=
| WorkerLog (el : EmulatorLog)
| WorkerDone.

(** How the promise returned by [handleBackgroundTrigger] ends. *)
Inductive Outcome :=
| Resolved
| Rejected (e : Error)
| Pending.

(** [JSON.parse] defines every member of an object as an own property. *)
Fixpoint member (key : jsstring) (members : list (jsstring * json))
    : option json :=
  match members with
  | [] => None
  | (k, v) :: members' =>
      if bool_decide (k = key) then Some v else member key members'
  end.

(** The conversion of a parsed JSON value to a string in a template
    literal.  An array joins the conversions of its elements, [null] giving
    the empty string.  An object is converted by its [toString] method:
    that of [Object.prototype] gives [[object Object]]; an object with a
    member [toString] of its own, which is never callable, then has no
    method that returns a primitive, and the conversion throws a
    [TypeError]. *)
Fixpoint ToString (v : json) : Result jsstring :=
  match v with
  | JNull => Ok (js "null")
  | JBool true => Ok (js "true")
  | JBool false => Ok (js "false")
  | JNumber rendering => Ok rendering
  | JString s => Ok s
  | JArray elements =>
      (fix join (vs : list json) : Result jsstring :=
         match vs with
         | [] => Ok []
         | v :: vs' =>
             match match v with JNull => Ok [] | _ => ToString v end with
             | Throw e => Throw e
             | Ok s =>
                 match vs' with
                 | [] => Ok s
                 | _ :: _ =>
                     match join vs' with
                     | Throw e => Throw e
                     | Ok rest => Ok (s ++ js "," ++ rest)
                     end
                 end
             end
         end) elements
  | JObject members =>
      match member (js "toString") members with
      | Some _ => Throw TypeError
      | None => Ok (js "[object Object]")
      end
  end.

(** [proto.eventType] inside a template literal: reading a property of
    [null] throws, a missing property reads as [undefined]. *)
Definition template_eventType (proto : json) : Result jsstring :=
  match proto with
  | JNull => Throw TypeError
  | JObject members =>
      match member (js "eventType") members with
      | Some v => ToString v
      | None => Ok (js "undefined")
      end
  | _ => Ok (js "undefined")
  end.

Section Handlers.

Variable toString : list byte -> jsstring.
Variable JSON_parse : jsstring -> option json.
Variable getFunctionService : EmulatedTriggerDefinition -> jsstring.
Variable SERVICE_REALTIME_DATABASE : jsstring.

(** What [getFunctionService] does when it is handed [undefined]: it
    returns a service or throws. *)
Variable getFunctionService_undefined : Result jsstring.

(** [JSON.parse(reqBody.toString())] *)
Definition parseBody (req : Request) : M json :=
  match JSON_parse (toString (rawBody req)) with
  | Some proto => mret proto
  | None => reject SyntaxError
  end.

Definition backgroundHandler (req : Request) : M unit :=
  let triggerId := params_trigger_name req in
  let projectId := params_project_id req in
  proto ← parseBody req;
  em ← get;
  let record := read (triggers em) triggerId in
  (* record && !record.enabled *)
  if match record with
     | IsRecord r => negb (enabled r)
     | IsOther => true
     | IsFalsy => false
     end then
    effect (LogDebugIgnoringBackgroundTrigger (url req));;
    effect (Respond 204 NoBody)
  else
    submit (BackgroundTask req projectId triggerId proto).

Definition httpsHandler (req : Request) : M unit :=
  submit (HttpsTask req).

Definition multicastHandler (req : Request) : M unit :=
  proto ← parseBody req;
  em ← get;
  eventType ←
    match template_eventType proto with
    | Ok s => mret s
    | Throw e => reject e
    end;
  let triggers :=
    default [] (multicastTriggers em !! (args_projectId em ++ js ":" ++ eventType)) in
  let projectId := params_project_id req in
  forOf triggers
    (fun triggerId _ => submit (MulticastTask req projectId triggerId proto)) tt;;
  effect (Respond 200 JsonMulticastAcknowledged).

(** The promise of [handleBackgroundTrigger] is settled by the first of:
    a [FATAL] log (rejection with code 500 and the text of the log), the
    end of the invocation (resolution). *)
Fixpoint settle (events : list WorkerEvent) : Outcome :=
  match events with
  | [] => Pending
  | WorkerLog el :: events' =>
      if bool_decide (level el = FATAL)
      then Rejected (ErrorBundle 500 (Some (text el)))
      else settle events'
  | WorkerDone :: _ => Resolved
  end.

(** [getFunctionService(trigger)], where [trigger] may be [undefined]. *)
Definition serviceOf (trigger : option EmulatedTriggerDefinition)
    : Result jsstring :=
  match trigger with
  | Some definition => Ok (getFunctionService definition)
  | None => getFunctionService_undefined
  end.

(** [handleBackgroundTrigger(projectId, triggerId, proto)]: the effects and
    how the returned promise ends, given what the worker does.  An
    exception thrown in the [async] method or in the executor of the promise
    is a rejection; reading [eventTrigger] of [undefined], or [resource] of
    a missing [eventTrigger], throws a [TypeError]. *)
Definition handleBackgroundTrigger (em : Emulator)
    (projectId triggerId : jsstring) (events : list WorkerEvent)
    : list Effect * Outcome :=
  match getTriggerDefinitionByName (triggers em) triggerId with
  | Throw e => ([], Rejected e)
  | Ok trigger =>
      match serviceOf trigger with
      | Throw e => ([], Rejected e)
      | Ok service =>
          let worker := [StartFunctionRuntime triggerId BACKGROUND] in
          let invoke :=
            (worker ++
               (if bool_decide (triggerId ≠ []) then [Track service] else []),
             settle events) in
          if bool_decide (projectId ≠ args_projectId em) then
            if bool_decide (service ≠ SERVICE_REALTIME_DATABASE) then
              (worker ++ [LoggerDebug (js "unknown project")],
               Rejected (ErrorBundle 404 None))
            else
              match trigger ≫= eventTrigger with
              | None => (worker, Rejected TypeError)
              | Some et =>
                  if negb (startsWith (resource et)
                             (js "projects/_/instances/" ++ projectId)) then
                    (worker ++ [LoggerDebug (js "did not match definition")],
                     Rejected (ErrorBundle 404 None))
                  else invoke
              end
          else invoke
      end
  end.

(** Running the task that [backgroundHandler] submitted. *)
Definition runBackgroundTask (em : Emulator) (req : Request)
    (projectId triggerId : jsstring) (events : list WorkerEvent)
    : list Effect :=
  let '(effects, outcome) :=
    handleBackgroundTrigger em projectId triggerId events in
  LogDebugAccepted (url req) triggerId :: effects ++
  match outcome with
  | Resolved => [Respond 200 JsonAcknowledged]
  | Rejected (ErrorBundle code body) =>
      match body with
      | Some (c :: b) => [Respond code (TextBody (c :: b))]
      | _ => [SendStatus code]
      end
  | Rejected _ => [SendStatusUndefined]
  | Pending => []
  end.

End Handlers.

(** The text of a JSON object with the single member [eventType]. *)
Definition eventBody (eventType : jsstring) : jsstring :=
  js "{" ++ [QUOTE] ++ js "eventType" ++ [QUOTE] ++ js ":"
    ++ [QUOTE] ++ eventType ++ [QUOTE] ++ js "}".

(** A parser for the examples.  It is only applied to the texts on which it
    agrees with [JSON.parse]: [null], [{}] and [eventBody "user.create"]
    parse, the empty text is a syntax error. *)
Definition exampleParse (s : jsstring) : option json :=
  if bool_decide (s = js "null") then Some JNull
  else if bool_decide (s = js "{}") then Some (JObject [])
  else if bool_decide (s = eventBody (js "user.create")) then
    Some (JObject [(js "eventType", JString (js "user.create"))])
  else None.

End Hub.

(** ** Examples *)

Module Examples.

Import Discovery Hub.

Definition emptyEmulator : Emulator :=
  {| args := {| projectId := js "demo"; host := None; port := None |};
     triggers := ∅; multicastTriggers := ∅; workQueue := [] |}.

(** A database trigger on [/foo/bar] of the namespace [myns]. *)
Definition onWrite : EmulatedTriggerDefinition :=
  {| name := js "onWrite"; entryPoint := js "onWrite";
     httpsTrigger := false;
     eventTrigger := Some {| resource := js "projects/_/instances/myns/refs/foo/bar";
                             eventType := js "providers/google.firebase.database/eventTypes/ref.write";
                             service := js "firebaseio.com" |};
     schedule := false; labels := [] |}.

(** The trigger [onWrite] after its path has been edited. *)
Definition onWriteMoved : EmulatedTriggerDefinition :=
  {| name := js "onWrite"; entryPoint := js "onWrite";
     httpsTrigger := false;
     eventTrigger := Some {| resource := js "projects/_/instances/myns/refs/moved";
                             eventType := js "providers/google.firebase.database/eventTypes/ref.write";
                             service := js "firebaseio.com" |};
     schedule := false; labels := [] |}.

(** A database trigger whose resource has an empty namespace. *)
Definition onWriteNoNamespace : EmulatedTriggerDefinition :=
  {| name := js "onWriteNoNamespace"; entryPoint := js "onWriteNoNamespace";
     httpsTrigger := false;
     eventTrigger := Some {| resource := js "projects/_/instances//refs/x";
                             eventType := js "providers/google.firebase.database/eventTypes/ref.write";
                             service := js "firebaseio.com" |};
     schedule := false; labels := [] |}.

Definition onCreate : EmulatedTriggerDefinition :=
  {| name := js "onCreate"; entryPoint := js "onCreate";
     httpsTrigger := false;
     eventTrigger := Some {| resource := js "projects/demo/databases/(default)/documents/users/{id}";
                             eventType := js "providers/cloud.firestore/eventTypes/document.create";
                             service := js "firestore.googleapis.com" |};
     schedule := false; labels := [] |}.

(** An HTTPS function. *)
Definition helloWorld : EmulatedTriggerDefinition :=
  {| name := js "helloWorld"; entryPoint := js "helloWorld";
     httpsTrigger := true; eventTrigger := None; schedule := false;
     labels := [] |}.

(** All collaborator emulators run and accept every request. *)
Definition allRunning : World :=
  {| registry_database := Some (js "localhost:9000");
     registry_firestore := Some (js "localhost:8080");
     registry_pubsubPort := Some 8085%N;
     api_request := fun _ => true;
     pubsub_addTrigger := fun _ _ => true |}.

(** The emulators run but every request to them fails. *)
Definition requestsFail : World :=
  {| registry_database := Some (js "localhost:9000");
     registry_firestore := Some (js "localhost:8080");
     registry_pubsubPort := Some 8085%N;
     api_request := fun _ => false;
     pubsub_addTrigger := fun _ _ => false |}.

(** No collaborator emulator runs. *)
Definition noneRunning : World :=
  {| registry_database := None;
     registry_firestore := None;
     registry_pubsubPort := None;
     api_request := fun _ => false;
     pubsub_addTrigger := fun _ _ => false |}.

Definition exampleLoadTriggers (W : World) :=
  loadTriggers exampleConstants exampleService exampleRegion W.

(** The emulator of project [demo] with the database trigger [onWrite] on
    the namespace [myns], disabled, and one subscriber of [user.create]. *)
Definition exampleEmulator : Emulator :=
  {| args := {| projectId := js "demo"; host := None; port := None |};
     triggers := {[ js "onWrite" := {| def := onWrite; enabled := false |} ]};
     multicastTriggers := {[ js "demo:user.create" := [js "onUserCreate"] ]};
     workQueue := [] |}.

Definition backgroundRequest (body : jsstring) : Request :=
  {| method := js "POST";
     url := js "/functions/projects/demo/triggers/onWrite";
     params_project_id := js "demo";
     params_trigger_name := js "onWrite";
     rawBody := bytes body |}.

(** A fan-out request for the project [other]. *)
Definition foreignMulticastRequest (body : jsstring) : Request :=
  {| method := js "POST";
     url := js "/functions/projects/other/trigger_multicast";
     params_project_id := js "other";
     params_trigger_name := [];
     rawBody := bytes body |}.

Definition multicastRequest (body : jsstring) : Request :=
  {| method := js "POST";
     url := js "/functions/projects/demo/trigger_multicast";
     params_project_id := js "demo";
     params_trigger_name := [];
     rawBody := bytes body |}.

End Examples.

(** ** Responses of a background task *)

(** The effects that answer the HTTP request. *)
Definition is_response (e : Effect) : bool :=
  match e with
  | Respond _ _ | SendStatus _ | SendStatusUndefined => true
  | _ => false
  end.

Definition responses (effects : list Effect) : list Effect :=
  List.filter is_response effects.

(** The calls that reach a collaborator emulator. *)
Definition is_collaborator_call (e : Effect) : bool :=
  match e with
  | ApiCall _ | PubsubAddTrigger _ _ => true
  | _ => false
  end.

(** The names in the report that [loadTriggers] logs at its end. *)
Definition reported_name (e : Effect) : option jsstring :=
  match e with
  | LogSuccessInitialized d | LogBulletIgnored d => Some (td_name d)
  | _ => None
  end.

Definition reported_names (effects : list Effect) : list jsstring :=
  omap reported_name effects.

(** A computation all of whose effects satisfy [P]. *)
Definition emits_only {A} (P : Effect -> Prop) (m : M A) : Prop :=
  forall em, Forall P (m em).2.

(** More example triggers. *)
Module MoreExamples.

(** A Pub/Sub trigger on the topic [news]. *)
Definition onPublish : EmulatedTriggerDefinition :=
  {| name := js "onPublish"; entryPoint := js "onPublish";
     httpsTrigger := false;
     eventTrigger := Some {| resource := js "projects/demo/topics/news";
                             eventType := js "google.pubsub.topic.publish";
                             service := js "pubsub.googleapis.com" |};
     schedule := false; labels := [] |}.

(** An auth trigger exported from a group: its name and its entry point
    differ. *)
Definition onUserCreate : EmulatedTriggerDefinition :=
  {| name := js "users-onCreate"; entryPoint := js "users.onCreate";
     httpsTrigger := false;
     eventTrigger := Some {| resource := js "projects/demo";
                             eventType := js "user.create";
                             service := js "firebaseauth.googleapis.com" |};
     schedule := false; labels := [] |}.

(** A background request for the trigger [triggerName] of the project
    [demo]. *)
Definition requestFor (triggerName body : jsstring) : Request :=
  {| method := js "POST";
     url := js "/functions/projects/demo/triggers/" ++ triggerName;
     params_project_id := js "demo";
     params_trigger_name := triggerName;
     rawBody := bytes body |}.

(** An HTTPS function exported under the name [constructor]. *)
Definition constructorFunction : EmulatedTriggerDefinition :=
  {| name := js "constructor"; entryPoint := js "constructor";
     httpsTrigger := true; eventTrigger := None; schedule := false;
     labels := [] |}.

(** A callable HTTPS function. *)
Definition callMe : EmulatedTriggerDefinition :=
  {| name := js "callMe"; entryPoint := js "callMe";
     httpsTrigger := true; eventTrigger := None; schedule := false;
     labels := [(js "deployment-callable", js "true")] |}.

End MoreExamples.

(** ** Callable authentication: [tokenFromAuthHeader] and the header
       handling of [handleHttpsTrigger] *)

Module AuthHeader.

Definition EQUALS : N := 61.
Definition DOT : N := 46.

(** [authHeader.match(...)] for the pattern [^Bearer ] followed by a group
    of [.] any number of times and [$]: the first group, or [null].  The
    group takes everything up to the end of the header, which must hold no
    line terminator. *)
Definition bearer_match (authHeader : jsstring) : option jsstring :=
  r ← lit (js "Bearer ") authHeader;
  if forallb dot r then Some r else None.

(** The input continues with any number of [=] and then a [.]. *)
Fixpoint padding_before_dot (s : jsstring) : bool :=
  match s with
  | [] => false
  | c :: s' =>
      if bool_decide (c = DOT) then true
      else if bool_decide (c = EQUALS) then padding_before_dot s'
      else false
  end.

(** [idToken.replace(/[=]+?\./g, ".")]: a match starts at an [=], takes the
    [=] that follow and needs a [.] after them; it is replaced by the [.].
    So an [=] is dropped exactly when only [=] stand between it and the next
    [.]. *)
Fixpoint stripPadding (s : jsstring) : jsstring :=
  match s with
  | [] => []
  | c :: s' =>
      if bool_decide (c = EQUALS) && padding_before_dot s'
      then stripPadding s'
      else c :: stripPadding s'
  end.

(** The value of [idToken] when [jwt.decode] is called.  The guard
    [idToken && idToken.includes("=")] only skips a replacement that would
    change nothing. *)
Definition idToken (authHeader : jsstring) : option jsstring :=
  stripPadding <$> bearer_match authHeader.

(** [trigger.labels && trigger.labels[key]] *)
Fixpoint label (labels : list (jsstring * jsstring)) (key : jsstring)
    : option jsstring :=
  match labels with
  | [] => None
  | (k, v) :: labels' =>
      if bool_decide (k = key) then Some v else label labels' key
  end.

Definition isCallable (trigger : EmulatedTriggerDefinition) : bool :=
  bool_decide (label (labels trigger) (js "deployment-callable") = Some (js "true")).

Section Callable.

(** [claims] is what [tokenFromAuthHeader] returns.  [decode] is its [try]
    block (jsonwebtoken's [jwt.decode], the check of its result and the copy
    of [sub] to [uid]), [None] when it returns [undefined]; [encode] is
    [encodeURIComponent(JSON.stringify({ uid: token.uid, token }))]; the two
    header names are those of [HttpConstants]. *)
Variable claims : Type.
Variable decode : jsstring -> option claims.
Variable encode : claims -> jsstring.
Variable ORIGINAL_AUTH_HEADER : jsstring.
Variable CALLABLE_AUTH_HEADER : jsstring.

Definition tokenFromAuthHeader (authHeader : jsstring) : option claims :=
  idToken authHeader ≫= decode.

(** The first part of [handleHttpsTrigger]: what it does to [req.headers]
    (header names are in lower case) before the request is forwarded. *)
Definition callableHeaders (trigger : EmulatedTriggerDefinition)
    (headers : gmap (list N) (list N)) : gmap (list N) (list N) :=
  match headers !! js "authorization" with
  | Some (c :: h) =>
      let authHeader := c :: h in
      if isCallable trigger then
        match tokenFromAuthHeader authHeader with
        | Some token =>
            <[CALLABLE_AUTH_HEADER := encode token]>
              (delete (js "authorization")
                 (<[ORIGINAL_AUTH_HEADER := authHeader]> headers))
        | None => headers
        end
      else headers
  | _ => headers
  end.

End Callable.

End AuthHeader.

(** ** The node binary: [askInstallNodeVersion] *)

Module NodeVersion.

(** What the method reads: [pkg.engines && pkg.engines.node] of the
    package.json (a string, when present), [process.execPath],
    [process.versions.node], the path [node_modules/.bin/node] under the
    functions directory, and the output of running it with [--version]
    ([None] when reading the output throws). *)
Record Probe := {
  engines_node : option jsstring;
  execPath : jsstring;
  versions_node : jsstring;
  localNodePath : jsstring;
  localNodeOutput : option jsstring;
}.

Inductive Log :=
| WarnNoNodeVersion
| SuccessLocalCache (requested : jsstring)
| SuccessHost (requested : jsstring)
| WarnMismatch (requested hostMajor : jsstring).

(** [s.split(".")[0]] *)
Definition major (s : jsstring) : jsstring := hd [] (split AuthHeader.DOT s).

Definition askInstallNodeVersion (p : Probe) (nodeMajorVersion : option N)
    : jsstring * list Log :=
  let nodeMajorVersion :=
    match nodeMajorVersion with Some 0%N | None => None | Some n => Some n end in
  if negb (truthy (engines_node p)) && negb (bool_decide (is_Some nodeMajorVersion))
  then (execPath p, [WarnNoNodeVersion])
  else
    let hostMajorVersion := major (versions_node p) in
    let requestedMajorVersion :=
      match nodeMajorVersion with
      | Some n => js (pretty n)
      | None => default [] (engines_node p)
      end in
    let localMajorVersion :=
      match localNodeOutput p with
      | Some out => major (drop 1 out)
      | None => js "0"
      end in
    if bool_decide (requestedMajorVersion = localMajorVersion) then
      (localNodePath p, [SuccessLocalCache requestedMajorVersion])
    else if bool_decide (requestedMajorVersion = hostMajorVersion) then
      (execPath p, [SuccessHost requestedMajorVersion])
    else
      (execPath p, [WarnMismatch requestedMajorVersion hostMajorVersion]).

End NodeVersion.

(** ** The environment of a runtime: [getCredentialsEnvironment], [start]
       and the [spawn] of [invokeRuntime] *)

Module RuntimeEnv.

Abbreviation env_t := (gmap (list N) (list N)).

Definition GAC : jsstring := js "GOOGLE_APPLICATION_CREDENTIALS".

Inductive Log :=
| WarnCredentialsFromEnvironment (path : jsstring)
| DebugSettingGAC (path : jsstring)
| WarnNotSignedIn.

(** [getCredentialsEnvironment()], given [process.env] and what
    [getCredentialPathAsync()] resolves to. *)
Definition getCredentialsEnvironment (processEnv : env_t)
    (defaultCredPath : option jsstring) : env_t * list Log :=
  match processEnv !! GAC with
  | Some (c :: p) => (∅, [WarnCredentialsFromEnvironment (c :: p)])
  | _ =>
      match defaultCredPath with
      | Some (c :: p) => ({[ GAC := c :: p ]}, [DebugSettingGAC (c :: p)])
      | _ => (∅, [WarnNotSignedIn])
      end
  end.

(** The object spread [{ ...a, ...b }]: the members of [b] win. *)
Definition spread (a b : env_t) : env_t := b ∪ a.

(** [start()]: [this.args.env = { ...credentialEnv, ...this.args.env }] *)
Definition start (processEnv argsEnv : env_t)
    (defaultCredPath : option jsstring) : env_t :=
  spread (getCredentialsEnvironment processEnv defaultCredPath).1 argsEnv.

(** [invokeRuntime]: the [env] given to [spawn],
    [{ node: opts.nodeBinary, ...opts.env, ...process.env }]. *)
Definition spawnEnv (nodeBinary : jsstring) (optsEnv processEnv : env_t)
    : env_t :=
  spread (spread {[ js "node" := nodeBinary ]} optsEnv) processEnv.

(** The environment of a runtime started after [start()] with the default
    options of [startFunctionRuntime] and [loadTriggers]
    ([env: this.args.env]). *)
Definition runtimeEnv (nodeBinary : jsstring) (processEnv argsEnv : env_t)
    (defaultCredPath : option jsstring) : env_t :=
  spawnEnv nodeBinary (start processEnv argsEnv defaultCredPath) processEnv.

End RuntimeEnv.

(** * Part II: theorems *)

(** ** Strings *)

Module JSFacts.

Lemma startsWith_prefix (s p : jsstring) :
  startsWith s p = true <-> p `prefix_of` s.
Proof.
  revert s. induction p as [|c p IH]; intros s; simpl.
  - split; [intros _; apply prefix_nil | done].
  - destruct s as [|d s].
    + split; [done | intros [k Hk]; discriminate].
    + rewrite andb_true_iff, bool_decide_eq_true, IH. split.
      * intros [-> Hp]. by apply prefix_cons.
      * intros [k Hk]. injection Hk as -> ->. split; [done | by exists k].
Qed.

Lemma split_nonempty sep s : split sep s <> [].
Proof.
  destruct s as [|c s]; simpl; [done |].
  destruct (decide (c = sep)); [done |].
  by destruct (split sep s).
Qed.

(** [split] as the completed lines followed by the unfinished rest. *)
Lemma split_decompose sep s :
  split sep s = slice_but_last (split sep s) ++ [last_elem (split sep s)].
Proof.
  unfold slice_but_last, last_elem.
  apply app_removelast_last, split_nonempty.
Qed.

Lemma lit_Some p s r : lit p s = Some r <-> s = p ++ r.
Proof.
  revert s. induction p as [|c p IH]; intros s; simpl.
  - split; [by intros [= ->] | by intros ->].
  - destruct s as [|d s]; [done |].
    destruct (decide (c = d)) as [->|Hne].
    + rewrite IH. split; [by intros -> | by intros [= ->]].
    + split; [done | intros [= ? ?]; done].
Qed.

(** The run found by [not_slash_run] has no [/] and is followed by a [/]
    or by the end of the input. *)
Lemma not_slash_run_spec s run rest :
  not_slash_run s = (run, rest) ->
  s = run ++ rest /\ (SLASH ∉ run) /\ (rest = [] \/ exists r, rest = SLASH :: r).
Proof.
  revert run rest. induction s as [|c s IH]; intros run rest; simpl.
  - intros [= <- <-]. split_and!; [done | apply not_elem_of_nil | by left].
  - destruct (decide (c = SLASH)) as [->|Hne].
    + intros [= <- <-]. split_and!; [done | apply not_elem_of_nil | right; eauto].
    + destruct (not_slash_run s) as [run' rest'] eqn:E.
      intros [= <- <-]. destruct (IH _ _ eq_refl) as (-> & Hrun & Hrest).
      split_and!; [done | | done].
      rewrite elem_of_cons. intros [?|?]; [by apply Hne | done].
Qed.

Lemma plus_not_slash_Some s run rest :
  plus_not_slash s = Some (run, rest) ->
  s = run ++ rest /\ run <> [] /\ (SLASH ∉ run).
Proof.
  unfold plus_not_slash. destruct (not_slash_run s) as [r1 r2] eqn:E.
  apply not_slash_run_spec in E as (-> & Hrun & _).
  destruct r1; [done |]. intros [= <- <-]. done.
Qed.

End JSFacts.

(** ** Trigger registry *)

Module RegistryFacts.

Import Examples.

(** Decides a closed proposition by evaluation. *)
Ltac by_computation := apply (bool_decide_unpack _); vm_compute; exact I.

(** *** Reading the registry object *)

Lemma lookup_own (t : triggers_t) (n : jsstring) : t !! n = own t !! n.
Proof. reflexivity. Qed.

Lemma read_own (t : triggers_t) (n : jsstring) (record : EmulatedTriggerRecord) :
  t !! n = Some record -> read t n = IsRecord record.
Proof. rewrite lookup_own. unfold read. by intros ->. Qed.

Lemma read_IsFalsy (t : triggers_t) (n : jsstring) :
  read t n = IsFalsy -> t !! n = None /\ n ∉ Object_prototype.
Proof.
  unfold lookup, triggers_lookup, read.
  destruct (own t !! n); [done |]. intros H. split; [done |].
  destruct (prototype t) as [p|]; repeat case_bool_decide; try done.
  subst n. by_computation.
Qed.

Lemma read_IsFalsy_not_proto (t : triggers_t) (n : jsstring) :
  read t n = IsFalsy -> n <> js "__proto__".
Proof.
  intros [_ Hn]%read_IsFalsy ->. apply Hn. by_computation.
Qed.

Lemma read_default (t : triggers_t) (n : jsstring) :
  prototype t = None -> t !! n = None ->
  read t n = if bool_decide (n ∈ Object_prototype) then IsOther else IsFalsy.
Proof. unfold lookup, triggers_lookup, read. by intros -> ->. Qed.

(** *** Assigning a record *)

Lemma addTriggerRecord_named (t : triggers_t) (d : EmulatedTriggerDefinition) :
  name d <> js "__proto__" ->
  addTriggerRecord t d
    = {| own := <[name d := {| def := d; enabled := true |}]> (own t);
         prototype := prototype t |}.
Proof.
  intros Hd. unfold addTriggerRecord. by rewrite bool_decide_eq_false_2.
Qed.

Lemma lookup_addTriggerRecord (t : triggers_t) (d : EmulatedTriggerDefinition) :
  name d <> js "__proto__" ->
  addTriggerRecord t d !! name d = Some {| def := d; enabled := true |}.
Proof.
  intros Hd. rewrite addTriggerRecord_named by done. apply lookup_insert_eq.
Qed.

Lemma lookup_addTriggerRecord_ne (t : triggers_t)
    (d : EmulatedTriggerDefinition) (n : jsstring) :
  n <> name d -> addTriggerRecord t d !! n = t !! n.
Proof.
  intros Hn. unfold addTriggerRecord.
  destruct (_ && _); [done |]. by apply lookup_insert_ne.
Qed.

Lemma read_addTriggerRecord (t : triggers_t) (d : EmulatedTriggerDefinition) :
  read (addTriggerRecord t d) (name d) = IsRecord {| def := d; enabled := true |}.
Proof.
  unfold addTriggerRecord.
  destruct (bool_decide (name d = js "__proto__")) eqn:Hp; simpl.
  - apply bool_decide_eq_true_1 in Hp. case_bool_decide as Hown; unfold read; simpl.
    + by rewrite Hown, bool_decide_eq_true_2.
    + by rewrite lookup_insert_eq.
  - unfold read. simpl. by rewrite lookup_insert_eq.
Qed.

Lemma read_addTriggerRecord_ne (t : triggers_t)
    (d : EmulatedTriggerDefinition) (n : jsstring) :
  name d <> js "__proto__" -> n <> name d ->
  read (addTriggerRecord t d) n = read t n.
Proof.
  intros Hd Hn. rewrite addTriggerRecord_named by done.
  unfold read. simpl. by rewrite lookup_insert_ne.
Qed.

(** *** The claims about the registry *)

(** C9 at the failing input.  The registry that holds no record is asked
    for [constructor]: the value read is the method that the object
    inherits, which is truthy, so the lookup does not throw and returns
    [undefined].  For the registry object with its first prototype: a name
    it neither owns nor inherits fails with the "No trigger with name ..."
    error, a name it inherits returns [undefined], and a name with a record
    returns the definition of that record. *)
Theorem lookup_misses_inherited_names :
  getTriggerDefinitionByName ∅ (js "constructor") = Ok None
  /\ (forall (triggers : triggers_t) (triggerName : jsstring),
        prototype triggers = None ->
        triggers !! triggerName = None ->
        getTriggerDefinitionByName triggers triggerName
          = if bool_decide (triggerName ∈ Object_prototype)
            then Ok None
            else Throw (FirebaseError (js "No trigger with name " ++ triggerName)))
  /\ (forall (triggers : triggers_t) (triggerName : jsstring)
             (record : EmulatedTriggerRecord),
        triggers !! triggerName = Some record ->
        getTriggerDefinitionByName triggers triggerName = Ok (Some (def record))).
Proof.
  split_and!.
  - vm_compute. reflexivity.
  - intros triggers triggerName Hproto Hown. unfold getTriggerDefinitionByName.
    rewrite read_default by done. by case_bool_decide.
  - intros triggers triggerName record Hown. unfold getTriggerDefinitionByName.
    by rewrite (read_own _ _ _ Hown).
Qed.

Lemma lookup_misses_inherited_names_witness :
  getTriggerDefinitionByName ∅ (js "helloWorld")
    = Throw (FirebaseError (js "No trigger with name helloWorld"))
  /\ getTriggerDefinitionByName ∅ (js "toString") = Ok None
  /\ getTriggerDefinitionByName
       {[ js "helloWorld" := {| def := helloWorld; enabled := false |} ]}
       (js "helloWorld") = Ok (Some helloWorld).
Proof.
  split_and!.
  - rewrite (proj1 (proj2 lookup_misses_inherited_names) ∅ (js "helloWorld"))
      by reflexivity.
    rewrite bool_decide_eq_false_2; [reflexivity | by_computation].
  - rewrite (proj1 (proj2 lookup_misses_inherited_names) ∅ (js "toString"))
      by reflexivity.
    rewrite bool_decide_eq_true_2; [reflexivity | by_computation].
  - apply (proj2 (proj2 lookup_misses_inherited_names)
             {[ js "helloWorld" := {| def := helloWorld; enabled := false |} ]}
             (js "helloWorld") {| def := helloWorld; enabled := false |}).
    vm_compute. reflexivity.
Defined.

(** C7, as stated, does not hold: registering a definition under a name
    that already has a (disabled) record replaces the definition of the
    record and enables it again. *)
Lemma register_existing_name_overwrites :
  let before : triggers_t :=
    {[ js "onWrite" := {| def := onWrite; enabled := false |} ]} in
  before !! name onWriteMoved = Some {| def := onWrite; enabled := false |}
  /\ addTriggerRecord before onWriteMoved !! js "onWrite"
       = Some {| def := onWriteMoved; enabled := true |}
  /\ addTriggerRecord before onWriteMoved <> before.
Proof.
  split_and!.
  - vm_compute. reflexivity.
  - vm_compute. reflexivity.
  - intros H. apply (f_equal (fun m => enabled <$> m !! js "onWrite")) in H.
    vm_compute in H. discriminate.
Qed.

(** C7, amended.  [addTriggerRecord] stores a record with the given
    definition and [enabled = true] under the name of the definition,
    whether or not the name had a record: reading the name gives that
    record.  The record is a property of the registry object itself for
    every name but [__proto__], where it becomes the prototype.  The
    records that the object holds under all other names are as they
    were. *)
Theorem addTriggerRecord_inserts_enabled
    (triggers : triggers_t) (d : EmulatedTriggerDefinition) :
  read (addTriggerRecord triggers d) (name d)
    = IsRecord {| def := d; enabled := true |}
  /\ (name d <> js "__proto__" ->
        addTriggerRecord triggers d !! name d
          = Some {| def := d; enabled := true |})
  /\ forall other, other <> name d ->
       addTriggerRecord triggers d !! other = triggers !! other.
Proof.
  split_and!.
  - apply read_addTriggerRecord.
  - apply lookup_addTriggerRecord.
  - intros other. apply lookup_addTriggerRecord_ne.
Qed.

Lemma addTriggerRecord_inserts_enabled_witness :
  addTriggerRecord ∅ helloWorld !! js "helloWorld"
    = Some {| def := helloWorld; enabled := true |}
  /\ addTriggerRecord ∅ helloWorld !! js "onWrite" = None.
Proof.
  split.
  - apply (proj1 (proj2 (addTriggerRecord_inserts_enabled ∅ helloWorld))).
    vm_compute. discriminate.
  - rewrite (proj2 (proj2 (addTriggerRecord_inserts_enabled ∅ helloWorld))
               (js "onWrite")).
    + reflexivity.
    + vm_compute. discriminate.
Defined.

End RegistryFacts.

(** ** The log decoder *)

Module LogDecoderFacts.

Import JSFacts LogDecoder.

Lemma last_elem_app (l1 l2 : list jsstring) :
  l2 <> [] -> last_elem (l1 ++ l2) = last_elem l2.
Proof.
  intros Hl2. unfold last_elem. induction l1 as [|x l1 IH]; [done |].
  simpl. rewrite IH. destruct (l1 ++ l2) eqn:E; [|done].
  by apply app_eq_nil in E as [_ ?].
Qed.

Lemma split_no_sep sep s : sep ∉ s -> split sep s = [s].
Proof.
  induction s as [|c s IH]; [done |].
  rewrite not_elem_of_cons. intros [Hne Hs]. simpl.
  rewrite decide_False by done. by rewrite IH.
Qed.

(** The unfinished rest never holds a separator. *)
Lemma last_elem_split_no_sep sep s : sep ∉ last_elem (split sep s).
Proof.
  induction s as [|c s IH]; simpl.
  - apply not_elem_of_nil.
  - destruct (decide (c = sep)) as [->|Hne].
    + pose proof (split_nonempty sep s).
      change ([] :: split sep s) with ([[]] ++ split sep s).
      by rewrite last_elem_app.
    + destruct (split sep s) as [|l [|l' ls]] eqn:E.
      * by apply split_nonempty in E.
      * unfold last_elem in *. simpl in *.
        rewrite not_elem_of_cons. split; [congruence | done].
      * done.
Qed.

(** Splitting a concatenation: the lines completed by the first part, then
    the split of its unfinished rest followed by the second part. *)
Lemma split_app sep a b :
  split sep (a ++ b)
    = slice_but_last (split sep a) ++ split sep (last_elem (split sep a) ++ b).
Proof.
  induction a as [|c a IH]; [done |]. simpl.
  destruct (decide (c = sep)) as [->|Hne].
  - rewrite IH. pose proof (split_nonempty sep a) as Hne.
    unfold slice_but_last, last_elem. simpl.
    by destruct (split sep a).
  - rewrite IH. destruct (split sep a) as [|l [|l' ls]] eqn:E.
    + by apply split_nonempty in E.
    + unfold slice_but_last, last_elem. simpl.
      by rewrite decide_False by done.
    + done.
Qed.

Section OnData.

Variable toString : list byte -> jsstring.
Variable fromJSON : jsstring -> EmulatorLog.

Local Abbreviation onLine := (LogDecoder.onLine fromJSON).
Local Abbreviation onData := (LogDecoder.onData toString fromJSON).
Local Abbreviation feed := (LogDecoder.feed toString fromJSON).
Local Abbreviation run := (LogDecoder.run toString fromJSON).
Local Abbreviation decoded := (LogDecoder.decoded toString).

Lemma decoded_cons buf chunks :
  decoded (buf :: chunks) = toString buf ++ decoded chunks.
Proof. reflexivity. Qed.

Lemma onData_eq buffer buf :
  onData buffer buf
    = (completed_lines (buffer ++ toString buf) ≫= onLine,
       last_elem (split LF (buffer ++ toString buf))).
Proof.
  unfold LogDecoder.onData, completed_lines. f_equal.
  destruct (split LF (buffer ++ toString buf)) as [|l [|l' ls]]; done.
Qed.

Lemma feed_cons buffer buf chunks :
  feed buffer (buf :: chunks)
    = ((onData buffer buf).1 ++ (feed (onData buffer buf).2 chunks).1,
       (feed (onData buffer buf).2 chunks).2).
Proof.
  simpl. by destruct (LogDecoder.feed _ _ _ chunks).
Qed.

Lemma feed_eq buffer chunks :
  LF ∉ buffer ->
  feed buffer chunks
    = (completed_lines (buffer ++ decoded chunks) ≫= onLine,
       last_elem (split LF (buffer ++ decoded chunks))).
Proof.
  revert buffer. induction chunks as [|buf chunks IH]; intros buffer Hb.
  - simpl. unfold completed_lines, LogDecoder.decoded. simpl. rewrite app_nil_r.
    by rewrite split_no_sep.
  - rewrite feed_cons, onData_eq. rewrite IH by apply last_elem_split_no_sep.
    unfold completed_lines. cbn [fst snd]. rewrite decoded_cons, (assoc_L (++)).
    rewrite (split_app LF (buffer ++ toString buf) (decoded chunks)).
    set (rest := last_elem (split LF (buffer ++ toString buf)) ++ decoded chunks).
    pose proof (split_nonempty LF rest) as Hne.
    unfold slice_but_last at 3. rewrite removelast_app by done.
    rewrite bind_app, last_elem_app by done. done.
Qed.

(** What a stream emits depends only on its decoded text. *)
Lemma run_eq chunks :
  run chunks = completed_lines (decoded chunks) ≫= onLine.
Proof.
  unfold LogDecoder.run. rewrite feed_eq by apply not_elem_of_nil. done.
Qed.

(** A chunk without a newline is added to the buffer and nothing is
    parsed. *)
Lemma partial_line_buffered buffer buf :
  LF ∉ buffer -> LF ∉ toString buf ->
  onData buffer buf = ([], buffer ++ toString buf).
Proof.
  intros Hb Hc. rewrite onData_eq. unfold completed_lines.
  rewrite split_no_sep; [done |].
  rewrite not_elem_of_app. done.
Qed.

(** Chunk-boundary independence for a boundary at which decoding the two
    chunks gives the text of the unsplit chunk. *)
Lemma split_chunk_same_records buf1 buf2 :
  toString (buf1 ++ buf2) = toString buf1 ++ toString buf2 ->
  run [buf1; buf2] = run [buf1 ++ buf2].
Proof.
  intros H. rewrite !run_eq. unfold LogDecoder.decoded. simpl.
  by rewrite H, !app_nil_r.
Qed.

Lemma kills_app e1 e2 : kills (e1 ++ e2) = kills e1 + kills e2.
Proof. unfold kills. by rewrite filter_app, length_app. Qed.

Lemma killed_events_app e1 e2 :
  killed_events (e1 ++ e2) = killed_events e1 + killed_events e2.
Proof. unfold killed_events. by rewrite filter_app, length_app. Qed.

Lemma kills_onLine line :
  kills (onLine line) = if bool_decide (level (fromJSON line) = FATAL) then 1 else 0.
Proof.
  unfold LogDecoder.onLine, kills. rewrite filter_cons.
  rewrite decide_False by done.
  case_bool_decide; done.
Qed.

Lemma killed_events_onLine line :
  killed_events (onLine line)
    = (if bool_decide (level (fromJSON line) = FATAL) then 1 else 0)
      + (if bool_decide (fromJSON line = killedLog) then 1 else 0).
Proof.
  unfold LogDecoder.onLine, killed_events. rewrite filter_cons.
  case_bool_decide as Hf.
  - assert (fromJSON line <> killedLog) as Hk.
    { intros E. rewrite E in Hf. vm_compute in Hf. discriminate. }
    rewrite decide_False by congruence.
    rewrite bool_decide_eq_false_2 by done. done.
  - case_bool_decide as Hk.
    + rewrite decide_True by congruence. done.
    + rewrite decide_False by congruence. done.
Qed.

(** C3, amended.  For every stream, whatever its chunks: the decoder handles
    the completed lines one by one; the number of [runtime.kill()] calls is
    the number of parsed records of severity [FATAL], and each of them adds
    one synthetic [killed] event (the events equal to the [killed] record
    are these and the parsed records that are themselves that record).  A
    stream with k [FATAL] lines therefore kills k times and emits k synthetic
    events. *)
Theorem one_kill_per_fatal_record (chunks : list (list byte)) :
  let lines := completed_lines (decoded chunks) in
  let fatal := filter (fun line => level (fromJSON line) = FATAL) lines in
  run chunks = lines ≫= onLine
  /\ kills (run chunks) = length fatal
  /\ killed_events (run chunks)
       = length fatal
         + length (filter (fun line => fromJSON line = killedLog) lines).
Proof.
  intros lines fatal. rewrite run_eq. fold lines. split; [done |].
  subst fatal. induction lines as [|line lines [IHk IHe]]; [done |].
  rewrite bind_cons, kills_app, killed_events_app.
  rewrite kills_onLine, killed_events_onLine, IHk, IHe.
  rewrite !filter_cons.
  repeat case_bool_decide; repeat case_decide; simpl; try done; lia.
Qed.

End OnData.

(** *** Decoding chunk by chunk *)

Lemma decode_app st (a b : list N) :
  Utf8.state_after st a = None ->
  Utf8.decode st (a ++ b) = Utf8.decode st a ++ Utf8.decode None b.
Proof.
  revert st. induction a as [|x a IH]; intros st; cbn [Utf8.state_after].
  - by intros ->.
  - intros H. cbn [app Utf8.decode].
    destruct (Utf8.step st x) as [out st'] eqn:E. cbn [snd] in H.
    by rewrite IH, (assoc_L (++)).
Qed.

(** A chunk that ends at a character boundary decodes on its own: what
    follows it is decoded as if it came alone. *)
Lemma toString_app_boundary (buf1 buf2 : list byte) :
  Utf8.ends_at_boundary buf1 ->
  Utf8.toString (buf1 ++ buf2) = Utf8.toString buf1 ++ Utf8.toString buf2.
Proof.
  intros H. unfold Utf8.toString.
  by rewrite fmap_app, decode_app, bind_app.
Qed.

(** Splitting a chunk at a character boundary does not change what is
    emitted. *)
Lemma split_at_boundary_same_records fromJSON (buf1 buf2 : list byte) :
  Utf8.ends_at_boundary buf1 ->
  run Utf8.toString fromJSON [buf1; buf2]
    = run Utf8.toString fromJSON [buf1 ++ buf2].
Proof.
  intros H. by apply split_chunk_same_records, toString_app_boundary.
Qed.

Lemma start_ascii (x : N) : (x < 128)%N -> Utf8.start x = ([x], None).
Proof.
  intros Hx. unfold Utf8.start, Utf8.in_range.
  replace (0 <=? x)%N with true by (symmetry; apply N.leb_le; lia).
  replace (x <=? 127)%N with true by (symmetry; apply N.leb_le; lia).
  done.
Qed.

Lemma ascii_ends_at_boundary (buf : list byte) :
  Forall (fun b => (Byte.to_N b < 128)%N) buf -> Utf8.ends_at_boundary buf.
Proof.
  unfold Utf8.ends_at_boundary. induction 1 as [|b buf Hb _ IH]; [done |].
  cbn [fmap list_fmap Utf8.state_after Utf8.step].
  by rewrite start_ascii.
Qed.

(** In particular, every split of a stream of ASCII bytes gives the same
    records. *)
Lemma split_after_ascii_same_records fromJSON (buf1 buf2 : list byte) :
  Forall (fun b => (Byte.to_N b < 128)%N) buf1 ->
  run Utf8.toString fromJSON [buf1; buf2]
    = run Utf8.toString fromJSON [buf1 ++ buf2].
Proof.
  intros H. by apply split_at_boundary_same_records, ascii_ends_at_boundary.
Qed.

(** C2 at the failing input.  The three bytes [C3 A9 0A] are the line "é"
    and its newline.  Delivered as one chunk they give the record parsed
    from "é" (U+00E9); delivered as [C3] and then [A9 0A] each chunk is
    decoded on its own, each half of the character becomes U+FFFD, and the
    record is parsed from a different line. *)
Theorem chunk_split_inside_character (fromJSON : jsstring -> EmulatorLog) :
  run Utf8.toString fromJSON [[xc3; xa9; x0a]] = onLine fromJSON [233%N]
  /\ run Utf8.toString fromJSON [[xc3]; [xa9; x0a]]
       = onLine fromJSON [65533%N; 65533%N].
Proof.
  split; rewrite run_eq.
  - replace (completed_lines (decoded Utf8.toString [[xc3; xa9; x0a]]))
      with [[233%N]] by (vm_compute; reflexivity).
    apply app_nil_r.
  - replace (completed_lines (decoded Utf8.toString [[xc3]; [xa9; x0a]]))
      with [[65533%N; 65533%N]] by (vm_compute; reflexivity).
    apply app_nil_r.
Qed.

(** With the parser of the examples the two deliveries emit different
    records, so the same stream does not always yield the same records. *)
Lemma chunk_boundary_independence_fails :
  ~ (forall buf1 buf2 : list byte,
       run Utf8.toString exampleFromJSON [buf1; buf2]
         = run Utf8.toString exampleFromJSON [buf1 ++ buf2]).
Proof.
  intros H. specialize (H [xc3] [xa9; x0a]).
  vm_compute in H. discriminate.
Qed.

(** C3, as stated, does not hold: a chunk with two [FATAL] lines kills the
    process twice and emits two synthetic [killed] events. *)
Lemma two_fatal_lines_two_kills :
  let fatal :=
    {| level := FATAL; type := js "runtime-error"; text := js "boom" |} in
  let effects :=
    run Utf8.toString exampleFromJSON
      [bytes (fatalLine ++ [LF] ++ fatalLine ++ [LF])] in
  effects = [Emit fatal; Emit killedLog; Kill; Emit fatal; Emit killedLog; Kill]
  /\ kills effects = 2
  /\ killed_events effects = 2.
Proof. vm_compute. done. Qed.

End LogDecoderFacts.

(** ** Trigger discovery *)

Module DiscoveryFacts.

Import JSFacts RegistryFacts Discovery Examples.

(** *** The database resource pattern *)

Lemma not_slash_run_app run r :
  SLASH ∉ run -> not_slash_run (run ++ SLASH :: r) = (run, SLASH :: r).
Proof.
  induction run as [|c run IH]; simpl.
  - done.
  - rewrite not_elem_of_cons. intros [Hne Hrun].
    rewrite decide_False by done. by rewrite IH.
Qed.

Lemma plus_not_slash_app run r :
  run <> [] -> SLASH ∉ run ->
  plus_not_slash (run ++ SLASH :: r) = Some (run, SLASH :: r).
Proof.
  intros Hne Hrun. unfold plus_not_slash. rewrite not_slash_run_app by done.
  by destruct run.
Qed.

(** What the pattern accepts: [projects/], a non-empty project without [/],
    [/instances/], a non-empty instance without [/], [/refs], and a path
    that starts with [/] and holds no line terminator.  The groups are the
    instance and the path. *)
(** One step of the option monad in the definition of the pattern. *)
Ltac next_piece H := cbn [mbind option_bind] in H.

Lemma DATABASE_PATH_PATTERN_exec_Some s whole instance path :
  DATABASE_PATH_PATTERN_exec s = Some [whole; instance; path]
  <-> whole = s
      /\ exists project rest,
           s = js "projects/" ++ project ++ js "/instances/" ++ instance
                 ++ js "/refs" ++ path
           /\ project <> [] /\ (SLASH ∉ project)
           /\ instance <> [] /\ (SLASH ∉ instance)
           /\ path = SLASH :: rest /\ forallb dot rest = true.
Proof.
  unfold DATABASE_PATH_PATTERN_exec. split.
  - intros H.
    destruct (lit (js "projects/") s) as [r1|] eqn:E1; [|done].
    apply lit_Some in E1. next_piece H.
    destruct (plus_not_slash r1) as [[project r2]|] eqn:E2; [|done].
    apply plus_not_slash_Some in E2 as (-> & Hp1 & Hp2). next_piece H.
    destruct (lit (js "/instances/") r2) as [r3|] eqn:E3; [|done].
    apply lit_Some in E3. next_piece H.
    destruct (plus_not_slash r3) as [[inst r4]|] eqn:E4; [|done].
    apply plus_not_slash_Some in E4 as (-> & Hi1 & Hi2). next_piece H.
    destruct (lit (js "/refs") r4) as [r5|] eqn:E5; [|done].
    apply lit_Some in E5. next_piece H.
    unfold slash_dot_star_end in H.
    destruct r5 as [|c rest]; [done |].
    destruct (decide (c = SLASH)) as [->|]; [|done].
    destruct (forallb dot rest) eqn:E6; [|done].
    next_piece H. injection H as <- <- <-.
    split; [done |]. exists project, rest. subst. done.
  - intros (-> & project & rest & -> & Hp1 & Hp2 & Hi1 & Hi2 & -> & Hdot).
    rewrite (proj2 (lit_Some _ _ _) eq_refl). cbn [mbind option_bind].
    change (js "/instances/") with (SLASH :: js "instances/").
    rewrite <- app_comm_cons, plus_not_slash_app by done. cbn [mbind option_bind].
    change (SLASH :: js "instances/" ++ instance ++ js "/refs" ++ SLASH :: rest)
      with (js "/instances/" ++ instance ++ js "/refs" ++ SLASH :: rest).
    rewrite (proj2 (lit_Some _ _ _) eq_refl). cbn [mbind option_bind].
    change (js "/refs") with (SLASH :: js "refs").
    rewrite <- app_comm_cons, plus_not_slash_app by done. cbn [mbind option_bind].
    change (SLASH :: js "refs" ++ SLASH :: rest)
      with (js "/refs" ++ SLASH :: rest).
    rewrite (proj2 (lit_Some _ _ _) eq_refl). cbn [mbind option_bind].
    unfold slash_dot_star_end. rewrite decide_True by done. rewrite Hdot. done.
Qed.

(** A match always has three elements and a non-empty instance. *)
Lemma DATABASE_PATH_PATTERN_exec_shape s result :
  DATABASE_PATH_PATTERN_exec s = Some result ->
  exists instance path, result = [s; instance; path] /\ instance <> [].
Proof.
  intros H. assert (exists i p, result = [s; i; p]) as (i & p & ->).
  { unfold DATABASE_PATH_PATTERN_exec in H.
    destruct (lit _ s); [|done]. next_piece H.
    destruct (plus_not_slash _) as [[? ?]|]; [|done]. next_piece H.
    destruct (lit _ _); [|done]. next_piece H.
    destruct (plus_not_slash _) as [[? ?]|]; [|done]. next_piece H.
    destruct (lit _ _); [|done]. next_piece H.
    destruct (slash_dot_star_end _); [|done]. next_piece H.
    injection H as <-. eauto. }
  exists i, p. split; [done |].
  apply DATABASE_PATH_PATTERN_exec_Some in H.
  by destruct H as (_ & ? & ? & _ & _ & _ & Hi & _).
Qed.

(** *** Rules for the state transformers *)

Lemma bind_eq {A B} (m : M A) (k : A -> M B) (em : Emulator) :
  (m ≫= k) em
    = match m em with
      | (Ok a, em', out) =>
          let '(r, em'', out') := k a em' in (r, em'', out ++ out')
      | (Throw e, em', out) => (Throw e, em', out)
      end.
Proof. reflexivity. Qed.

Lemma bind_ret {A B} (a : A) (k : A -> M B) (em : Emulator) :
  (mret a ≫= k) em = k a em.
Proof. rewrite bind_eq. cbn. by destruct (k a em) as [[? ?] ?]. Qed.

Lemma bind_get {B} (k : Emulator -> M B) (em : Emulator) :
  (get ≫= k) em = k em em.
Proof. rewrite bind_eq. cbn. by destruct (k em em) as [[? ?] ?]. Qed.

Lemma bind_effect {B} (e : Effect) (k : unit -> M B) (em : Emulator) :
  (effect e ≫= k) em = let '(r, em', out) := k tt em in (r, em', e :: out).
Proof. rewrite bind_eq. reflexivity. Qed.

Lemma bind_reject {A B} (e : Error) (k : A -> M B) (em : Emulator) :
  (reject e ≫= k) em = (Throw e, em, []).
Proof. reflexivity. Qed.

(** Unfolds the operations of the monad. *)
Ltac run_M :=
  cbv [mret M_ret mbind M_bind effect reject get modify onRejection].

Lemma stable_ret {A} (a : A) : stable (mret a).
Proof. intros em r em' out [= <- <- <-]. done. Qed.

Lemma stable_reject {A} e : stable (@reject A e).
Proof. intros em r em' out [= <- <- <-]. done. Qed.

Lemma stable_effect e : stable (effect e).
Proof. intros em r em' out [= <- <- <-]. done. Qed.

Lemma stable_set_multicastTriggers f : stable (modify (set_multicastTriggers f)).
Proof. intros em r em' out [= <- <- <-]. done. Qed.

Lemma stable_bind {A B} (m : M A) (k : A -> M B) :
  stable m -> (forall a, stable (k a)) -> stable (m ≫= k).
Proof.
  intros Hm Hk em r em2 out. rewrite bind_eq.
  destruct (m em) as [[[a|e] em1] out1] eqn:E1.
  - destruct (k a em1) as [[r2 em2'] out2] eqn:E2. intros [= <- <- <-].
    destruct (Hm _ _ _ _ E1) as (? & ? & ?).
    destruct (Hk a _ _ _ _ E2) as (? & ? & ?). split_and!; congruence.
  - intros [= <- <- <-]. by apply (Hm _ _ _ _ E1).
Qed.

Lemma stable_onRejection {A} (m : M A) (h : M unit) :
  stable m -> stable h -> stable (onRejection m h).
Proof.
  intros Hm Hh em r em2 out. unfold onRejection.
  destruct (m em) as [[[a|e] em1] out1] eqn:E1.
  - intros [= <- <- <-]. by apply (Hm _ _ _ _ E1).
  - destruct (h em1) as [[r2 em2'] out2] eqn:E2. intros [= <- <- <-].
    destruct (Hm _ _ _ _ E1) as (? & ? & ?).
    destruct (Hh _ _ _ _ E2) as (? & ? & ?). split_and!; congruence.
Qed.

Lemma total_ret {A} (a : A) : total (mret a).
Proof. intros em. by exists a, em, []. Qed.

Lemma total_effect e : total (effect e).
Proof. intros em. by exists tt, em, [e]. Qed.

Lemma total_modify f : total (modify f).
Proof. intros em. by exists tt, (f em), []. Qed.

Lemma total_bind {A B} (m : M A) (k : A -> M B) :
  total m -> (forall a, total (k a)) -> total (m ≫= k).
Proof.
  intros Hm Hk em. rewrite bind_eq.
  destruct (Hm em) as (a & em1 & out1 & ->).
  destruct (Hk a em1) as (b & em2 & out2 & ->). eauto.
Qed.

Create HintDb emulator discriminated.
#[local] Hint Resolve stable_ret stable_reject stable_effect
  stable_set_multicastTriggers stable_bind stable_onRejection
  total_ret total_effect total_modify total_bind : emulator.

Lemma toSetup_unseen em defs d :
  d ∈ toSetup em defs <-> d ∈ defs /\ read (triggers em) (name d) = IsFalsy.
Proof. unfold toSetup. rewrite list_elem_of_filter. tauto. Qed.

(** The definitions that are set up have no record and no inherited
    name; in particular none is named [__proto__]. *)
Lemma toSetup_names em defs n :
  n ∈ name <$> toSetup em defs ->
  triggers em !! n = None /\ n <> js "__proto__".
Proof.
  intros (d & -> & [_ Hd]%toSetup_unseen)%list_elem_of_fmap. split.
  - by apply read_IsFalsy in Hd as [? _].
  - by apply read_IsFalsy_not_proto in Hd.
Qed.

Lemma toSetup_idemp em defs : toSetup em (toSetup em defs) = toSetup em defs.
Proof.
  unfold toSetup. induction defs as [|d defs IH]; [done |].
  rewrite filter_cons. case_decide as Hd; [|done].
  rewrite filter_cons, decide_True by done. by rewrite IH.
Qed.

Section Discovery.

Variable Constants : ConstantsTable.
Variable getFunctionService : EmulatedTriggerDefinition -> jsstring.
Variable getFunctionRegion : EmulatedTriggerDefinition -> jsstring.
Variable W : World.

Local Abbreviation addRealtimeDatabaseTrigger :=
  (Discovery.addRealtimeDatabaseTrigger W).
Local Abbreviation addFirestoreTrigger := (Discovery.addFirestoreTrigger W).
Local Abbreviation addPubsubTrigger := (Discovery.addPubsubTrigger W).
Local Abbreviation registerWithCollaborator :=
  (Discovery.registerWithCollaborator Constants getFunctionService W).
Local Abbreviation setupTrigger :=
  (Discovery.setupTrigger Constants getFunctionService getFunctionRegion W).
Local Abbreviation loadTriggers :=
  (Discovery.loadTriggers Constants getFunctionService getFunctionRegion W).

Lemma stable_request r : stable (request W r).
Proof.
  unfold request. apply stable_bind; [auto with emulator |].
  intros _. destruct (api_request W r); auto with emulator.
Qed.

Lemma stable_trueOrRethrow m : stable m -> stable (trueOrRethrow m).
Proof. intros Hm. unfold trueOrRethrow. auto with emulator. Qed.

Lemma stable_addRealtimeDatabaseTrigger pid d :
  stable (addRealtimeDatabaseTrigger pid d).
Proof.
  unfold Discovery.addRealtimeDatabaseTrigger.
  repeat case_match; auto 10 using stable_trueOrRethrow, stable_request with emulator.
  all: apply stable_bind; [auto with emulator |]; intros _.
  all: apply stable_bind; [case_bool_decide; auto with emulator |]; intros ?.
  all: auto using stable_trueOrRethrow, stable_request.
Qed.

Lemma stable_addFirestoreTrigger pid d : stable (addFirestoreTrigger pid d).
Proof.
  unfold Discovery.addFirestoreTrigger.
  case_match; auto using stable_trueOrRethrow, stable_request with emulator.
Qed.

Lemma stable_addPubsubTrigger pid d : stable (addPubsubTrigger pid d).
Proof.
  unfold Discovery.addPubsubTrigger. repeat case_match; auto 10 with emulator.
Qed.

Lemma stable_addAuthTrigger pid d : stable (addAuthTrigger pid d).
Proof. unfold addAuthTrigger. auto 10 with emulator. Qed.

Lemma total_addPubsubTrigger pid d : total (addPubsubTrigger pid d).
Proof.
  unfold Discovery.addPubsubTrigger. repeat case_match; auto 10 with emulator.
Qed.

Lemma total_addAuthTrigger pid d : total (addAuthTrigger pid d).
Proof. unfold addAuthTrigger. auto 10 with emulator. Qed.

Lemma stable_registerWithCollaborator pid d :
  stable (registerWithCollaborator pid d).
Proof.
  unfold Discovery.registerWithCollaborator.
  repeat case_bool_decide;
    auto using stable_addFirestoreTrigger, stable_addRealtimeDatabaseTrigger,
      stable_addPubsubTrigger, stable_addAuthTrigger with emulator.
Qed.

(** Only the Firestore and the database registration can reject, and only
    when the emulator in question is running. *)
Lemma registerWithCollaborator_rejects pid d em e em' out :
  registerWithCollaborator pid d em = (Throw e, em', out) ->
  (getFunctionService d = SERVICE_FIRESTORE Constants
     /\ is_Some (registry_firestore W))
  \/ (getFunctionService d = SERVICE_REALTIME_DATABASE Constants
      /\ is_Some (registry_database W)).
Proof.
  unfold Discovery.registerWithCollaborator.
  repeat case_bool_decide.
  - unfold Discovery.addFirestoreTrigger.
    destruct (registry_firestore W); [eauto | done].
  - unfold Discovery.addRealtimeDatabaseTrigger.
    destruct (registry_database W); [eauto | done].
  - intros Hr. destruct (total_addPubsubTrigger pid d em) as (? & ? & ? & Hok).
    rewrite Hok in Hr. discriminate.
  - intros Hr. destruct (total_addAuthTrigger pid d em) as (? & ? & ? & Hok).
    rewrite Hok in Hr. discriminate.
  - done.
Qed.

Lemma setupTrigger_spec d acc em r em' out :
  setupTrigger d acc em = (r, em', out) ->
  args em' = args em /\ workQueue em' = workQueue em /\
  match r with
  | Ok _ => triggers em' = addTriggerRecord (triggers em) d
  | Throw e =>
      triggers em' = triggers em /\ httpsTrigger d = false
      /\ exists em0 out0,
           registerWithCollaborator (projectId (args em)) d em
             = (Throw e, em0, out0)
  end.
Proof.
  unfold Discovery.setupTrigger. rewrite bind_eq. cbn [get].
  destruct (httpsTrigger d).
  - destruct (getInfo Constants (args em)) as [h p].
    intros [= <- <- <-]. done.
  - rewrite !bind_eq.
    destruct (registerWithCollaborator (projectId (args em)) d em)
      as [[[added|e] em1] out1] eqn:E;
      destruct (stable_registerWithCollaborator _ _ _ _ _ _ E) as (Ht & Ha & Hq).
    + intros [= <- <- <-]. cbn. rewrite Ht, Ha, Hq. done.
    + intros [= <- <- <-]. rewrite Ht, Ha, Hq. eauto 10.
Qed.

Lemma forOf_setupTrigger_spec l acc em r em' out :
  forOf l setupTrigger acc em = (r, em', out) ->
  args em' = args em /\ workQueue em' = workQueue em /\
  match r with
  | Ok _ => triggers em' = foldl addTriggerRecord (triggers em) l
  | Throw e =>
      exists done failing rest em0 em1 out1,
        l = done ++ failing :: rest
        /\ triggers em' = foldl addTriggerRecord (triggers em) done
        /\ httpsTrigger failing = false
        /\ registerWithCollaborator (projectId (args em)) failing em0
             = (Throw e, em1, out1)
  end.
Proof.
  revert acc em out. induction l as [|d l IH]; intros acc em out.
  - intros [= <- <- <-]. done.
  - cbn [forOf]. rewrite bind_eq.
    destruct (setupTrigger d acc em) as [[[acc1|e] em1] out1] eqn:E1;
      apply setupTrigger_spec in E1 as (Ha & Hq & Ht).
    + destruct (forOf l setupTrigger acc1 em1) as [[r2 em2] out2] eqn:E2.
      intros [= <- <- <-].
      apply IH in E2 as (Ha2 & Hq2 & Ht2).
      split_and!; [congruence | congruence |].
      destruct r2 as [?|e].
      * rewrite Ht2, Ht. done.
      * destruct Ht2 as (done & failing & rest & em0 & em3 & out3
                           & -> & Hd & Hh & Hr).
        exists (d :: done), failing, rest, em0, em3, out3.
        split_and!; [done | | done |].
        -- rewrite Hd, Ht. done.
        -- by rewrite <- Ha.
    + intros [= <- <- <-]. destruct Ht as (Ht & Hh & em0 & out0 & Hr).
      split_and!; [done | done |].
      exists [], d, l, em, em0, out0. done.
Qed.

(** The two loops that report the results only log. *)
Lemma forOf_effect_spec {A} (l : list A) (f : A -> Effect) em :
  forOf l (fun r _ => effect (f r)) tt em = (Ok tt, em, f <$> l).
Proof.
  induction l as [|x l IH]; [done |].
  cbn [forOf]. rewrite bind_eq. cbn [effect]. rewrite IH. done.
Qed.

Lemma loadTriggers_spec defs em r em' out :
  loadTriggers (Ok defs) em = (r, em', out) ->
  args em' = args em /\ workQueue em' = workQueue em /\
  match r with
  | Ok _ => triggers em' = foldl addTriggerRecord (triggers em) (toSetup em defs)
  | Throw e =>
      exists done failing rest em0 em1 out1,
        toSetup em defs = done ++ failing :: rest
        /\ triggers em' = foldl addTriggerRecord (triggers em) done
        /\ httpsTrigger failing = false
        /\ registerWithCollaborator (projectId (args em)) failing em0
             = (Throw e, em1, out1)
  end.
Proof.
  unfold Discovery.loadTriggers.
  rewrite bind_effect, bind_effect, bind_ret, bind_get, bind_eq.
  destruct (forOf (toSetup em defs) setupTrigger [] em)
    as [[[results|e] em1] out1] eqn:E;
    apply forOf_setupTrigger_spec in E as (Ha & Hq & Ht).
  - rewrite bind_eq, !forOf_effect_spec. intros [= <- <- <-]. done.
  - intros [= <- <- <-]. done.
Qed.

Lemma loadTriggers_toSetup defs em :
  loadTriggers (Ok (toSetup em defs)) em = loadTriggers (Ok defs) em.
Proof.
  unfold Discovery.loadTriggers.
  rewrite !bind_effect, !bind_ret, !bind_get, toSetup_idemp. done.
Qed.

(** The sentinel-namespace warning is never logged: a resource that the
    pattern accepts has a non-empty instance. *)
Lemma sentinel_warning_unreachable pid d em :
  LogWarnSentinelNamespace ∉ (addRealtimeDatabaseTrigger pid d em).2.
Proof.
  assert (forall k : jsstring -> Effect,
            LogWarnSentinelNamespace
              ∉ ((effect (k (name d));; reject RejectedUndefined) em
                   : Result bool * _ * _).2
            \/ k (name d) = LogWarnSentinelNamespace) as Hwarn.
  { intros k. rewrite bind_effect. cbn.
    destruct (decide (k (name d) = LogWarnSentinelNamespace)); [by right |].
    left. rewrite not_elem_of_cons. split; [done | apply not_elem_of_nil]. }
  unfold Discovery.addRealtimeDatabaseTrigger.
  destruct (registry_database W) as [db|]; [|apply not_elem_of_nil].
  destruct (eventTrigger d) as [et|].
  - destruct (DATABASE_PATH_PATTERN_exec (resource et)) as [result|] eqn:E.
    + apply DATABASE_PATH_PATTERN_exec_shape in E as (instance & path & -> & Hi).
      rewrite bool_decide_eq_true_2 by done.
      unfold trueOrRethrow, request. run_M.
      destruct (api_request W _); cbn [snd app];
        rewrite !not_elem_of_cons; split_and!; done || apply not_elem_of_nil.
    + by destruct (Hwarn (fun n => LogWarnMalformedResource n (resource et))).
  - by destruct (Hwarn LogWarnUndefinedEventTrigger).
Qed.

(** A rejected wait for the [triggers-parsed] log ends discovery before
    anything is registered. *)
Lemma loadTriggers_not_parsed e em :
  loadTriggers (Throw e) em
    = (Throw e, em, [WorkerPoolRefresh; InvokeDiagnosticRuntime]).
Proof. reflexivity. Qed.

End Discovery.

(** *** Registering a list of definitions *)

Lemma foldl_addTriggerRecord_other (l : list EmulatedTriggerDefinition)
    (t : triggers_t) (n : jsstring) :
  n ∉ name <$> l -> foldl addTriggerRecord t l !! n = t !! n.
Proof.
  revert t. induction l as [|d l IH]; intros t; [done |].
  rewrite fmap_cons, not_elem_of_cons. intros [Hne Hn]. simpl.
  rewrite IH by done. by apply lookup_addTriggerRecord_ne.
Qed.

Lemma foldl_addTriggerRecord_named (l : list EmulatedTriggerDefinition)
    (t : triggers_t) (n : jsstring) :
  n <> js "__proto__" ->
  n ∈ name <$> l ->
  exists d, d ∈ l /\ name d = n
    /\ foldl addTriggerRecord t l !! n = Some {| def := d; enabled := true |}.
Proof.
  intros Hproto. revert t. induction l as [|d l IH]; intros t.
  - by intros ?%elem_of_nil.
  - intros Hn. simpl. destruct (decide (n ∈ name <$> l)) as [Hl|Hl].
    + destruct (IH (addTriggerRecord t d) Hl) as (d' & Hd' & <- & Hlook).
      exists d'. split_and!; [by right | done | done].
    + rewrite fmap_cons, elem_of_cons in Hn. destruct Hn as [->|?]; [|done].
      exists d. split_and!; [by left | done |].
      rewrite foldl_addTriggerRecord_other by done.
      by apply lookup_addTriggerRecord.
Qed.

(** Registering definitions of which none is named [__proto__] keeps the
    prototype of the registry object, and with it what is read under the
    names that are not registered. *)
Lemma foldl_addTriggerRecord_prototype (l : list EmulatedTriggerDefinition)
    (t : triggers_t) :
  js "__proto__" ∉ name <$> l ->
  prototype (foldl addTriggerRecord t l) = prototype t.
Proof.
  revert t. induction l as [|d l IH]; intros t; [done |].
  rewrite fmap_cons, not_elem_of_cons. intros [Hne Hn]. simpl.
  rewrite IH by done. by rewrite addTriggerRecord_named.
Qed.

Lemma foldl_addTriggerRecord_read (l : list EmulatedTriggerDefinition)
    (t : triggers_t) (n : jsstring) :
  js "__proto__" ∉ name <$> l -> n ∉ name <$> l ->
  read (foldl addTriggerRecord t l) n = read t n.
Proof.
  revert t. induction l as [|d l IH]; intros t; [done |].
  rewrite !fmap_cons, !not_elem_of_cons. intros [Hne Hp] [Hn Hl]. simpl.
  rewrite IH by done. by apply read_addTriggerRecord_ne.
Qed.

(** *** The claims about discovery *)

(** C5.  The pattern takes [projects/_/instances/myns/refs/foo/bar] apart
    into the namespace [myns] and the path [/foo/bar].  It does not match
    [projects/_/instances//refs/x]: the group for the namespace needs at
    least one character.  With a database emulator running, registering a
    trigger on that resource therefore logs the malformed-resource warning
    and rejects, without a request to the database emulator and without
    the sentinel-namespace warning.  No resource reaches the branch that
    logs that warning: every match has a non-empty namespace. *)
Theorem database_resource_pattern :
  DATABASE_PATH_PATTERN_exec (js "projects/_/instances/myns/refs/foo/bar")
    = Some [js "projects/_/instances/myns/refs/foo/bar"; js "myns"; js "/foo/bar"]
  /\ DATABASE_PATH_PATTERN_exec (js "projects/_/instances//refs/x") = None
  /\ (forall (W : World) (pid db : jsstring) (d : EmulatedTriggerDefinition)
         (et : EventTrigger) (em : Emulator),
         registry_database W = Some db ->
         eventTrigger d = Some et ->
         resource et = js "projects/_/instances//refs/x" ->
         addRealtimeDatabaseTrigger W pid d em
           = (Throw RejectedUndefined, em,
              [LogWarnMalformedResource (name d) (resource et)]))
  /\ (forall (s : jsstring) (result : list jsstring),
         DATABASE_PATH_PATTERN_exec s = Some result ->
         exists instance path, result = [s; instance; path] /\ instance <> [])
  /\ (forall (W : World) (pid : jsstring) (d : EmulatedTriggerDefinition)
         (em : Emulator),
         LogWarnSentinelNamespace ∉ (addRealtimeDatabaseTrigger W pid d em).2).
Proof.
  split_and!.
  - vm_compute. reflexivity.
  - vm_compute. reflexivity.
  - intros W pid db d et em Hdb Het Hres.
    unfold addRealtimeDatabaseTrigger. rewrite Hdb, Het, Hres.
    replace (DATABASE_PATH_PATTERN_exec (js "projects/_/instances//refs/x"))
      with (@None (list jsstring)) by (vm_compute; reflexivity).
    reflexivity.
  - apply DATABASE_PATH_PATTERN_exec_shape.
  - intros W pid d em. apply sentinel_warning_unreachable.
Qed.

Lemma database_resource_pattern_witness :
  addRealtimeDatabaseTrigger allRunning (js "demo") onWriteNoNamespace emptyEmulator
    = (Throw RejectedUndefined, emptyEmulator,
       [LogWarnMalformedResource (js "onWriteNoNamespace")
          (js "projects/_/instances//refs/x")]).
Proof.
  apply (proj1 (proj2 (proj2 database_resource_pattern))
           allRunning (js "demo") (js "localhost:9000") onWriteNoNamespace
           {| resource := js "projects/_/instances//refs/x";
              eventType := js "providers/google.firebase.database/eventTypes/ref.write";
              service := js "firebaseio.com" |}
           emptyEmulator);
    reflexivity.
Defined.

(** C4, as stated, does not hold.  The database emulator runs and the
    first discovered trigger has a resource that the pattern rejects: the
    registration rejects, [loadTriggers] rejects with it, and neither this
    trigger nor the HTTPS trigger discovered after it is added to the
    registry. *)
Lemma rejected_registration_aborts_discovery :
  let '(r, em', _) :=
    exampleLoadTriggers allRunning (Ok [onWriteNoNamespace; helloWorld])
      emptyEmulator in
  r = Throw RejectedUndefined
  /\ triggers em' !! js "onWriteNoNamespace" = None
  /\ triggers em' !! js "helloWorld" = None.
Proof. vm_compute. done. Qed.

(** C4, amended.  A run that does not get the definitions from the
    diagnostic runtime rejects before it registers anything.  Otherwise,
    when [loadTriggers] returns, every discovered name is in the registry,
    whatever the registrations returned: reading the name gives a record
    (for the names under which the registry object reads an inherited
    value, such as [constructor], nothing is said); the run always returns
    when neither the Firestore nor the database emulator runs.  When
    [loadTriggers] rejects, an event trigger of the Firestore or database
    service, whose emulator runs, had its registration rejected: the
    definitions set up before it are in the registry, it and the
    definitions after it were not added by this run. *)
Theorem registration_outcomes
    (Constants : ConstantsTable)
    (getFunctionService getFunctionRegion : EmulatedTriggerDefinition -> jsstring)
    (W : World) (parsed : Result (list EmulatedTriggerDefinition))
    (em : Emulator) :
  let '(r, em', _) :=
    loadTriggers Constants getFunctionService getFunctionRegion W parsed em in
  match parsed with
  | Throw e => r = Throw e /\ em' = em
  | Ok defs =>
      match r with
      | Ok _ =>
          forall d, d ∈ defs ->
            read (triggers em) (name d) <> IsOther ->
            exists record, read (triggers em') (name d) = IsRecord record
      | Throw e =>
          exists done failing rest,
            toSetup em defs = done ++ failing :: rest
            /\ httpsTrigger failing = false
            /\ (getFunctionService failing = SERVICE_FIRESTORE Constants
                  /\ is_Some (registry_firestore W)
                \/ getFunctionService failing = SERVICE_REALTIME_DATABASE Constants
                  /\ is_Some (registry_database W))
            /\ triggers em' = foldl addTriggerRecord (triggers em) done
      end
      /\ (registry_firestore W = None -> registry_database W = None -> r = Ok tt)
  end.
Proof.
  destruct parsed as [defs|e]; [|by rewrite loadTriggers_not_parsed].
  destruct (loadTriggers _ _ _ _ _ em) as [[r em'] out] eqn:E.
  apply loadTriggers_spec in E as (_ & _ & H).
  destruct r as [[]|e].
  - split; [|done]. intros d Hd Hread. rewrite H.
    assert (js "__proto__" ∉ name <$> toSetup em defs) as Hproto.
    { by intros [_ ?]%toSetup_names. }
    destruct (read (triggers em) (name d)) as [|record|] eqn:El; [| |done].
    + destruct (foldl_addTriggerRecord_named (toSetup em defs) (triggers em) (name d))
        as (d' & _ & _ & Hlook).
      * by apply read_IsFalsy_not_proto in El.
      * apply list_elem_of_fmap. exists d. split; [done |].
        by apply toSetup_unseen.
      * eexists. by apply read_own.
    + exists record. rewrite foldl_addTriggerRecord_read; [done | done |].
      intros (d' & Hn & [_ Hd']%toSetup_unseen)%list_elem_of_fmap.
      rewrite <- Hn, El in Hd'. done.
  - destruct H as (done & failing & rest & em0 & em1 & out1 & Hl & Ht & Hh & Hr).
    apply registerWithCollaborator_rejects in Hr.
    split.
    + exists done, failing, rest. done.
    + intros Hf Hd. rewrite Hf, Hd in Hr.
      destruct Hr as [[_ []]|[_ []]]; done.
Qed.

Lemma registration_outcomes_witness :
  let '(r, em', _) :=
    exampleLoadTriggers noneRunning (Ok [onWrite; onCreate; helloWorld])
      emptyEmulator in
  r = Ok tt
  /\ exists record, read (triggers em') (js "onCreate") = IsRecord record.
Proof.
  pose proof (registration_outcomes exampleConstants exampleService
                exampleRegion noneRunning (Ok [onWrite; onCreate; helloWorld])
                emptyEmulator) as H.
  unfold exampleLoadTriggers.
  destruct (loadTriggers _ _ _ _ _ _) as [[r em'] out].
  destruct H as [H Hr]. rewrite (Hr eq_refl eq_refl) in *.
  split; [done |]. apply (H onCreate); [set_solver |].
  vm_compute. discriminate.
Defined.

(** C6, as stated, does not hold.  The registry knows [onWrite] (disabled);
    a later run discovers [onWrite], [onCreate] and [helloWorld] while the
    request to the Firestore emulator fails: the run rejects and neither new
    name gets a record. *)
Lemma rediscovery_can_miss_new_names :
  let before :=
    set_triggers
      (fun _ => {[ js "onWrite" := {| def := onWrite; enabled := false |} ]})
      emptyEmulator in
  let '(r, em', _) :=
    exampleLoadTriggers requestsFail (Ok [onWrite; onCreate; helloWorld]) before in
  r = Throw RequestError
  /\ triggers em' !! js "onWrite" = Some {| def := onWrite; enabled := false |}
  /\ triggers em' !! js "onCreate" = None
  /\ triggers em' !! js "helloWorld" = None.
Proof. vm_compute. done. Qed.

(** C6, amended.  Whatever a run of discovery is given and however it
    ends, every record that was in the registry before the run is in it
    unchanged after the run, and the run is the run on the definitions
    under whose names the registry read nothing.  When the run returns (no
    registration rejects), each discovered name under which the registry
    read nothing has a record with [enabled = true] for a discovered
    definition of that name, and no name that was not discovered was
    added.  (A discovered name that the registry object inherits, such as
    [constructor], counts as present: nothing is said about it.) *)
Theorem rediscovery_keeps_records_adds_new
    (Constants : ConstantsTable)
    (getFunctionService getFunctionRegion : EmulatedTriggerDefinition -> jsstring)
    (W : World) (parsed : Result (list EmulatedTriggerDefinition))
    (em : Emulator) :
  let load := loadTriggers Constants getFunctionService getFunctionRegion W in
  let '(r, em', out) := load parsed em in
  (forall n record,
      triggers em !! n = Some record -> triggers em' !! n = Some record)
  /\ forall defs, parsed = Ok defs ->
       load (Ok (toSetup em defs)) em = (r, em', out)
       /\ (r = Ok tt -> forall n,
             (read (triggers em) n = IsFalsy -> n ∈ name <$> defs ->
                exists d, d ∈ defs /\ name d = n
                  /\ triggers em' !! n = Some {| def := d; enabled := true |})
             /\ (triggers em !! n = None -> n ∉ name <$> defs ->
                   triggers em' !! n = None)).
Proof.
  intros load. subst load. destruct parsed as [defs|e].
  2:{ rewrite loadTriggers_not_parsed. done. }
  destruct (loadTriggers _ _ _ _ (Ok defs) em) as [[r em'] out] eqn:E.
  pose proof E as (_ & _ & H)%loadTriggers_spec.
  assert (forall l n record, l ⊆ toSetup em defs ->
            triggers em !! n = Some record ->
            foldl addTriggerRecord (triggers em) l !! n = Some record) as Hkeep.
  { intros l n record Hl Hn. rewrite foldl_addTriggerRecord_other; [done |].
    intros (d' & -> & Hd')%list_elem_of_fmap.
    apply Hl, toSetup_unseen in Hd' as [_ [Hd' _]%read_IsFalsy]. congruence. }
  split.
  - intros n record Hn. destruct r as [[]|e].
    + rewrite H. by apply Hkeep.
    + destruct H as (done & failing & rest & _ & _ & _ & Hl & -> & _).
      apply Hkeep; [|done]. rewrite Hl. set_solver.
  - intros ? [= <-]. split; [by rewrite loadTriggers_toSetup |].
    intros -> n. rewrite H. split.
    + intros Hn (d & -> & Hd)%list_elem_of_fmap.
      destruct (foldl_addTriggerRecord_named (toSetup em defs) (triggers em) (name d))
        as (d' & [Hd' _]%toSetup_unseen & Hname & Hlook).
      { by apply read_IsFalsy_not_proto in Hn. }
      { apply list_elem_of_fmap. exists d. split; [done |]. by apply toSetup_unseen. }
      eauto.
    + intros Hn Hnot. rewrite foldl_addTriggerRecord_other; [done |].
      intros (d' & -> & [Hd' _]%toSetup_unseen)%list_elem_of_fmap.
      apply Hnot, list_elem_of_fmap. eauto.
Qed.

Lemma rediscovery_keeps_records_adds_new_witness :
  let before :=
    set_triggers
      (fun _ => {[ js "onWrite" := {| def := onWrite; enabled := false |} ]})
      emptyEmulator in
  let '(r, em', _) :=
    exampleLoadTriggers allRunning (Ok [onWrite; helloWorld]) before in
  triggers em' !! js "onWrite" = Some {| def := onWrite; enabled := false |}
  /\ exists d, d ∈ [onWrite; helloWorld] /\ name d = js "helloWorld"
       /\ triggers em' !! js "helloWorld" = Some {| def := d; enabled := true |}.
Proof.
  intros before.
  pose proof (rediscovery_keeps_records_adds_new exampleConstants exampleService
                exampleRegion allRunning (Ok [onWrite; helloWorld]) before) as H.
  unfold exampleLoadTriggers. cbv zeta in H.
  destruct (loadTriggers _ _ _ _ _ _) as [[r em'] out] eqn:E.
  assert (r = Ok tt) as Hr.
  { apply (f_equal (fun x => x.1.1)) in E. vm_compute in E. congruence. }
  destruct H as [Hkeep Hnew]. split.
  - apply Hkeep. vm_compute. reflexivity.
  - destruct (Hnew _ eq_refl) as [_ Hadd].
    apply (Hadd Hr (js "helloWorld")).
    + vm_compute. reflexivity.
    + apply list_elem_of_fmap. exists helloWorld.
      split; [reflexivity | rewrite !elem_of_cons; auto].
Defined.

End DiscoveryFacts.

(** ** The request router *)

Module HubFacts.

Import JSFacts RegistryFacts Discovery DiscoveryFacts Hub Examples.

Section Handlers.

Variable toString : list byte -> jsstring.
Variable JSON_parse : jsstring -> option json.
Variable getFunctionService : EmulatedTriggerDefinition -> jsstring.
Variable SERVICE_REALTIME_DATABASE : jsstring.
Variable getFunctionService_undefined : Result jsstring.

Local Abbreviation backgroundHandler :=
  (Hub.backgroundHandler toString JSON_parse).
Local Abbreviation multicastHandler :=
  (Hub.multicastHandler toString JSON_parse).
Local Abbreviation handleBackgroundTrigger :=
  (Hub.handleBackgroundTrigger getFunctionService SERVICE_REALTIME_DATABASE
     getFunctionService_undefined).

(** Submitting one task per element appends the tasks, in order, to the
    pending sequence and does nothing else. *)
Lemma forOf_submit_spec {A} (l : list A) (f : A -> Task) (em : Emulator) :
  forOf l (fun x _ => submit (f x)) tt em
    = (Ok tt, set_workQueue (fun q => q ++ (f <$> l)) em, []).
Proof.
  revert em. induction l as [|x l IH]; intros em.
  - cbn. unfold set_workQueue. rewrite app_nil_r. by destruct em.
  - cbn [forOf]. rewrite bind_eq. cbn [submit modify]. rewrite IH.
    unfold set_workQueue. cbn. by rewrite <- (assoc_L (++)).
Qed.

(** An invocation of a trigger that has a record goes on with the
    definition of the record. *)
Lemma handleBackgroundTrigger_known (em : Emulator)
    (projectId triggerId : jsstring) (events : list WorkerEvent)
    (record : EmulatedTriggerRecord) :
  triggers em !! triggerId = Some record ->
  handleBackgroundTrigger em projectId triggerId events
  = let trigger := def record in
    let service := getFunctionService trigger in
    let worker := [StartFunctionRuntime triggerId BACKGROUND] in
    let invoke :=
      (worker ++ (if bool_decide (triggerId ≠ []) then [Track service] else []),
       settle events) in
    if bool_decide (projectId ≠ args_projectId em) then
      if bool_decide (service ≠ SERVICE_REALTIME_DATABASE) then
        (worker ++ [LoggerDebug (js "unknown project")],
         Rejected (ErrorBundle 404 None))
      else
        match eventTrigger trigger with
        | None => (worker, Rejected TypeError)
        | Some et =>
            if negb (startsWith (resource et)
                       (js "projects/_/instances/" ++ projectId)) then
              (worker ++ [LoggerDebug (js "did not match definition")],
               Rejected (ErrorBundle 404 None))
            else invoke
        end
    else invoke.
Proof.
  intros Hrecord. unfold Hub.handleBackgroundTrigger, getTriggerDefinitionByName.
  by rewrite (read_own _ _ _ Hrecord).
Qed.

(** An invocation under a name that reads as nothing is rejected by the
    lookup before anything else happens. *)
Lemma handleBackgroundTrigger_unknown (em : Emulator)
    (projectId triggerId : jsstring) (events : list WorkerEvent) :
  read (triggers em) triggerId = IsFalsy ->
  handleBackgroundTrigger em projectId triggerId events
  = ([], Rejected (FirebaseError (js "No trigger with name " ++ triggerId))).
Proof.
  intros Hread. unfold Hub.handleBackgroundTrigger, getTriggerDefinitionByName.
  by rewrite Hread.
Qed.

(** C1, amended.  For a request whose trigger name has a record with
    [enabled = false]: the handler never changes the work queue (nor
    anything else in the emulator) and starts no runtime; when the body of
    the request parses as JSON it logs the request and responds 204 with no
    content; when the body does not parse, [JSON.parse] throws before the
    record is looked at and the handler responds nothing. *)
Theorem disabled_trigger_is_dropped (req : Request) (em : Emulator)
    (record : EmulatedTriggerRecord) :
  triggers em !! params_trigger_name req = Some record ->
  enabled record = false ->
  let '(r, em', out) := backgroundHandler req em in
  em' = em
  /\ match JSON_parse (toString (rawBody req)) with
     | Some _ =>
         r = Ok tt
         /\ out = [LogDebugIgnoringBackgroundTrigger (url req);
                   Respond 204 NoBody]
     | None => r = Throw SyntaxError /\ out = []
     end.
Proof.
  intros Hrecord Hdisabled. unfold Hub.backgroundHandler, parseBody.
  destruct (JSON_parse (toString (rawBody req))) as [proto|].
  - rewrite bind_ret, bind_get, (read_own _ _ _ Hrecord), Hdisabled. done.
  - done.
Qed.

(** C8, amended.  For a fan-out request whose body parses and whose event
    type, with the project of the emulator, resolves to the subscribers
    [subscribers]: the handler appends one task per subscriber, in order,
    to the pending sequence of the work queue, each with the project of
    the request, changes nothing else, and its only effect is the
    acknowledgment: it waits for none of the tasks, which are all still
    pending when the response has been sent. *)
Theorem multicast_submits_one_task_per_subscriber (req : Request)
    (em : Emulator) (proto : json) (eventType : jsstring)
    (subscribers : list jsstring) :
  JSON_parse (toString (rawBody req)) = Some proto ->
  template_eventType proto = Ok eventType ->
  default [] (multicastTriggers em !! (args_projectId em ++ js ":" ++ eventType))
    = subscribers ->
  let tasks :=
    (fun triggerId => MulticastTask req (params_project_id req) triggerId proto)
      <$> subscribers in
  let '(r, em', out) := multicastHandler req em in
  r = Ok tt
  /\ workQueue em' = workQueue em ++ tasks
  /\ length tasks = length subscribers
  /\ args em' = args em
  /\ triggers em' = triggers em
  /\ multicastTriggers em' = multicastTriggers em
  /\ out = [Respond 200 JsonMulticastAcknowledged].
Proof.
  intros Hparse Htype Hsubs tasks.
  unfold Hub.multicastHandler, parseBody.
  rewrite Hparse, bind_ret, bind_get, Htype, bind_ret, Hsubs.
  rewrite bind_eq, forOf_submit_spec. cbn.
  split_and!; try done. apply length_fmap.
Qed.

(** The promise never ends with a 404 once the project check has passed. *)
Lemma settle_not_404 events : settle events <> Rejected (ErrorBundle 404 None).
Proof.
  induction events as [|[el|] events IH]; simpl; [done | | done].
  case_bool_decide; done.
Qed.

(** C10, amended.  For a trigger that has a record in the registry: an
    invocation for the project of the emulator passes the project check,
    and ends as the worker makes it end, never with a 404; an invocation
    for another project is rejected with code 404 when the service of the
    trigger is not the Realtime Database or when the resource of its event
    trigger does not start with [projects/_/instances/] followed by the
    requested project, and passes the check otherwise; a trigger of the
    Realtime Database service without an event trigger makes the check
    throw a [TypeError]. *)
Theorem project_check (em : Emulator) (projectId triggerId : jsstring)
    (events : list WorkerEvent) (record : EmulatedTriggerRecord) :
  triggers em !! triggerId = Some record ->
  let trigger := def record in
  let outcome := (handleBackgroundTrigger em projectId triggerId events).2 in
  (projectId = args_projectId em ->
     outcome = settle events /\ outcome <> Rejected (ErrorBundle 404 None))
  /\ (projectId <> args_projectId em ->
       (getFunctionService trigger <> SERVICE_REALTIME_DATABASE ->
          outcome = Rejected (ErrorBundle 404 None))
       /\ (getFunctionService trigger = SERVICE_REALTIME_DATABASE ->
             match eventTrigger trigger with
             | Some et =>
                 if startsWith (resource et)
                      (js "projects/_/instances/" ++ projectId)
                 then outcome = settle events
                 else outcome = Rejected (ErrorBundle 404 None)
             | None => outcome = Rejected TypeError
             end)).
Proof.
  intros Hrecord trigger outcome. subst outcome.
  rewrite (handleBackgroundTrigger_known _ _ _ _ _ Hrecord). fold trigger.
  cbv zeta. split.
  - intros ->. rewrite bool_decide_eq_false_2 by (by intros []).
    split; [done | apply settle_not_404].
  - intros Hproject. rewrite bool_decide_eq_true_2 by done. split.
    + intros Hservice. by rewrite bool_decide_eq_true_2.
    + intros Hservice.
      rewrite bool_decide_eq_false_2 by (by intros []).
      destruct (eventTrigger trigger) as [et|]; [|done].
      by destruct (startsWith _ _).
Qed.

End Handlers.

(** C1, as stated, does not hold: a request with an empty body for a
    disabled trigger gets no response, because [JSON.parse] throws a syntax
    error on the empty text before the record is looked at. *)
Lemma disabled_trigger_empty_body_no_response :
  triggers exampleEmulator !! js "onWrite"
    = Some {| def := onWrite; enabled := false |}
  /\ backgroundHandler Utf8.toString exampleParse (backgroundRequest [])
       exampleEmulator
     = (Throw SyntaxError, exampleEmulator, []).
Proof. split; vm_compute; reflexivity. Qed.

Lemma disabled_trigger_is_dropped_witness :
  backgroundHandler Utf8.toString exampleParse (backgroundRequest (js "{}"))
    exampleEmulator
  = (Ok tt, exampleEmulator,
     [LogDebugIgnoringBackgroundTrigger
        (js "/functions/projects/demo/triggers/onWrite");
      Respond 204 NoBody]).
Proof.
  pose proof (disabled_trigger_is_dropped Utf8.toString exampleParse
                (backgroundRequest (js "{}")) exampleEmulator
                {| def := onWrite; enabled := false |}) as H.
  destruct (backgroundHandler _ _ _ _) as [[r em'] out].
  destruct H as (-> & H); [vm_compute; reflexivity | reflexivity |].
  change (exampleParse (Utf8.toString (rawBody (backgroundRequest (js "{}")))))
    with (Some (JObject [])) in H.
  destruct H as [-> ->]. reflexivity.
Defined.

(** C8, as stated, does not hold: the subscribers are resolved with the
    project of the emulator, not with the project of the request.  The
    emulator of project [demo] has one subscriber of [user.create]; a
    fan-out request for the project [other], for which no subscriber is
    registered, still queues a task for that subscriber. *)
Lemma multicast_resolves_with_emulator_project :
  let req := foreignMulticastRequest (eventBody (js "user.create")) in
  multicastTriggers exampleEmulator
    !! (params_project_id req ++ js ":" ++ js "user.create") = None
  /\ workQueue
       (multicastHandler Utf8.toString exampleParse req exampleEmulator).1.2
     = [MulticastTask req (js "other") (js "onUserCreate")
          (JObject [(js "eventType", JString (js "user.create"))])].
Proof. split; vm_compute; reflexivity. Qed.

Lemma multicast_submits_one_task_per_subscriber_witness :
  let req := multicastRequest (eventBody (js "user.create")) in
  exists proto,
    workQueue
      (multicastHandler Utf8.toString exampleParse req exampleEmulator).1.2
    = [MulticastTask req (js "demo") (js "onUserCreate") proto].
Proof.
  intros req. exists (JObject [(js "eventType", JString (js "user.create"))]).
  pose proof (multicast_submits_one_task_per_subscriber Utf8.toString
                exampleParse req exampleEmulator
                (JObject [(js "eventType", JString (js "user.create"))])
                (js "user.create") [js "onUserCreate"]
                ltac:(vm_compute; reflexivity) ltac:(vm_compute; reflexivity)
                ltac:(vm_compute; reflexivity)) as H.
  cbv zeta in H.
  destruct (multicastHandler _ _ _ _) as [[r em'] out].
  destruct H as (_ & H & _). exact H.
Defined.

(** C10, as stated, does not hold: an invocation for another project under
    a name that has no record is rejected by the lookup with its error,
    which carries no code 404. *)
Lemma unknown_trigger_is_rejected_without_404 :
  handleBackgroundTrigger exampleService (js "firebaseio.com")
    exampleService_undefined exampleEmulator (js "other") (js "missing")
    [WorkerDone]
  = ([], Rejected (FirebaseError (js "No trigger with name missing"))).
Proof. vm_compute. reflexivity. Qed.

Lemma project_check_witness :
  (handleBackgroundTrigger exampleService (js "firebaseio.com")
     exampleService_undefined exampleEmulator
     (js "other") (js "onWrite") [WorkerDone]).2
    = Rejected (ErrorBundle 404 None)
  /\ (handleBackgroundTrigger exampleService (js "firebaseio.com")
        exampleService_undefined exampleEmulator
        (js "myns") (js "onWrite") [WorkerDone]).2 = Resolved
  /\ (handleBackgroundTrigger exampleService (js "firebaseio.com")
        exampleService_undefined exampleEmulator
        (js "demo") (js "onWrite") [WorkerDone]).2 = Resolved.
Proof.
  split_and!.
  - pose proof (proj2 (project_check exampleService (js "firebaseio.com")
                         exampleService_undefined
                         exampleEmulator (js "other") (js "onWrite") [WorkerDone]
                         {| def := onWrite; enabled := false |}
                         ltac:(vm_compute; reflexivity))) as H.
    destruct H as [_ H]; [vm_compute; discriminate |].
    apply (H eq_refl).
  - pose proof (proj2 (project_check exampleService (js "firebaseio.com")
                         exampleService_undefined
                         exampleEmulator (js "myns") (js "onWrite") [WorkerDone]
                         {| def := onWrite; enabled := false |}
                         ltac:(vm_compute; reflexivity))) as H.
    destruct H as [_ H]; [vm_compute; discriminate |].
    apply (H eq_refl).
  - apply (proj1 (project_check exampleService (js "firebaseio.com")
                    exampleService_undefined
                    exampleEmulator (js "demo") (js "onWrite") [WorkerDone]
                    {| def := onWrite; enabled := false |}
                    ltac:(vm_compute; reflexivity))).
    reflexivity.
Defined.

End HubFacts.

(** ** Further properties: the registry operations *)

Module RegistryMore.

Import Examples RegistryFacts DiscoveryFacts.

(** X1.  [disableBackgroundTriggers] keeps every name and every definition:
    looking up a definition gives what it gave before.  It sets the flag of
    every record with an event trigger to [false] and leaves the flag of the
    other (HTTPS) records as it was; doing it twice changes nothing more. *)
Theorem disableBackgroundTriggers_flags (triggers : triggers_t) :
  (forall n, getTriggerDefinitionByName (disableBackgroundTriggers triggers) n
             = getTriggerDefinitionByName triggers n)
  /\ (forall n, disableBackgroundTriggers triggers !! n = None
                <-> triggers !! n = None)
  /\ (forall n record, triggers !! n = Some record ->
        exists record',
          disableBackgroundTriggers triggers !! n = Some record'
          /\ def record' = def record
          /\ enabled record'
             = match eventTrigger (def record) with
               | Some _ => false
               | None => enabled record
               end)
  /\ disableBackgroundTriggers (disableBackgroundTriggers triggers)
     = disableBackgroundTriggers triggers.
Proof.
  unfold disableBackgroundTriggers, getTriggerDefinitionByName, read.
  cbn [own prototype]. split_and!.
  - intros n. rewrite lookup_fmap. destruct (own triggers !! n) as [r|]; [|done].
    simpl. by destruct (eventTrigger (def r)).
  - intros n. rewrite !lookup_own. cbn [own]. rewrite lookup_fmap.
    by destruct (own triggers !! n).
  - intros n record. rewrite !lookup_own. cbn [own]. intros Hn.
    rewrite lookup_fmap, Hn. simpl.
    destruct (eventTrigger (def record)) eqn:E; eexists; split_and!; done.
  - f_equal. apply map_eq. intros n. rewrite !lookup_fmap.
    destruct (own triggers !! n) as [r|]; [|done]. simpl. f_equal.
    destruct (eventTrigger (def r)) eqn:E; simpl; by rewrite ?E.
Qed.

Lemma disableBackgroundTriggers_flags_witness :
  let t : triggers_t :=
    {[ js "onWrite" := {| def := onWrite; enabled := true |} ]} in
  exists record',
    disableBackgroundTriggers t !! js "onWrite" = Some record'
    /\ def record' = onWrite /\ enabled record' = false.
Proof.
  intros t.
  destruct (proj1 (proj2 (proj2 (disableBackgroundTriggers_flags t)))
              (js "onWrite") {| def := onWrite; enabled := true |})
    as (record' & H1 & H2 & H3); [vm_compute; reflexivity |].
  exists record'. done.
Defined.

(** A record that is read under a name stays there when a definition of
    another name is registered. *)
Lemma read_IsRecord_addTriggerRecord_ne (t : triggers_t)
    (d : EmulatedTriggerDefinition) (n : jsstring)
    (record : EmulatedTriggerRecord) :
  read t n = IsRecord record -> n <> name d ->
  read (addTriggerRecord t d) n = IsRecord record.
Proof.
  intros Hread Hn. unfold addTriggerRecord.
  destruct (bool_decide (name d = js "__proto__")) eqn:Hp; simpl.
  - apply bool_decide_eq_true_1 in Hp. rewrite Hp in Hn.
    case_bool_decide as Hown; revert Hread; unfold read; simpl.
    + destruct (own t !! n); [done |].
      destruct (prototype t) as [p|]; repeat case_bool_decide; try done.
      by destruct (enabled p).
    + by rewrite lookup_insert_ne by congruence.
  - revert Hread. unfold read. simpl. by rewrite lookup_insert_ne.
Qed.

Lemma foldl_addTriggerRecord_read_named (l : list EmulatedTriggerDefinition)
    (t : triggers_t) (n : jsstring) :
  n ∈ name <$> l ->
  exists d, d ∈ l /\ name d = n
    /\ read (foldl addTriggerRecord t l) n
       = IsRecord {| def := d; enabled := true |}.
Proof.
  revert t. induction l as [|d l IH]; intros t.
  - by intros ?%elem_of_nil.
  - intros Hn. simpl. destruct (decide (n ∈ name <$> l)) as [Hl|Hl].
    + destruct (IH (addTriggerRecord t d) Hl) as (d' & Hd' & <- & Hlook).
      exists d'. split_and!; [by right | done | done].
    + rewrite fmap_cons, elem_of_cons in Hn. destruct Hn as [->|?]; [|done].
      exists d. split_and!; [by left | done |].
      clear IH. revert Hl. generalize (read_addTriggerRecord t d).
      generalize (addTriggerRecord t d). induction l as [|d' l IH]; intros t'.
      * done.
      * rewrite fmap_cons, not_elem_of_cons. intros Hread [Hne Hl]. simpl.
        apply IH; [|done]. by apply read_IsRecord_addTriggerRecord_ne.
Qed.

(** X2.  After [setTriggersForTesting], looking up the name of a listed
    definition returns that definition when no other listed definition
    shares its name; the definition is held by an enabled record, which the
    registry object owns unless the name is [__proto__].  The records under
    names that are not listed are untouched, and so is everything that is
    read under such a name when no listed definition is named
    [__proto__]. *)
Theorem setTriggersForTesting_lookup (triggers : triggers_t)
    (ds : list EmulatedTriggerDefinition) :
  (forall d, d ∈ ds ->
     (forall d', d' ∈ ds -> name d' = name d -> d' = d) ->
     getTriggerDefinitionByName (setTriggersForTesting triggers ds) (name d)
       = Ok (Some d)
     /\ (name d <> js "__proto__" ->
           setTriggersForTesting triggers ds !! name d
             = Some {| def := d; enabled := true |}))
  /\ (forall n, n ∉ name <$> ds ->
        setTriggersForTesting triggers ds !! n = triggers !! n)
  /\ (js "__proto__" ∉ name <$> ds ->
        forall n, n ∉ name <$> ds ->
          read (setTriggersForTesting triggers ds) n = read triggers n).
Proof.
  unfold setTriggersForTesting. split_and!.
  - intros d Hd Huniq. split.
    + destruct (foldl_addTriggerRecord_read_named ds triggers (name d))
        as (d' & Hd' & Hname & Hread).
      { apply list_elem_of_fmap. eauto. }
      rewrite (Huniq d' Hd' Hname) in Hread.
      unfold getTriggerDefinitionByName. by rewrite Hread.
    + intros Hproto.
      destruct (foldl_addTriggerRecord_named ds triggers (name d) Hproto)
        as (d' & Hd' & Hname & Hlook).
      { apply list_elem_of_fmap. eauto. }
      by rewrite (Huniq d' Hd' Hname) in Hlook.
  - intros n Hn. by apply foldl_addTriggerRecord_other.
  - intros Hproto n Hn. by apply foldl_addTriggerRecord_read.
Qed.

Lemma setTriggersForTesting_lookup_witness :
  getTriggerDefinitionByName
    (setTriggersForTesting ∅ [onWrite; helloWorld]) (js "helloWorld")
  = Ok (Some helloWorld).
Proof.
  apply (proj1 (setTriggersForTesting_lookup ∅ [onWrite; helloWorld]) helloWorld).
  - rewrite !elem_of_cons. auto.
  - intros d'. rewrite !elem_of_cons, elem_of_nil.
    intros [->|[->|[]]]; [vm_compute; discriminate | done].
Defined.

(** The own properties after registering a list of definitions in an
    object that owns no [__proto__]: the definitions named [__proto__]
    add none. *)
Lemma own_foldl_addTriggerRecord (ds : list EmulatedTriggerDefinition)
    (t : triggers_t) :
  own t !! js "__proto__" = None ->
  own (foldl addTriggerRecord t ds)
  = foldl (fun m d => <[name d := {| def := d; enabled := true |}]> m) (own t)
      (filter (fun d => name d <> js "__proto__") ds).
Proof.
  revert t. induction ds as [|d ds IH]; intros t Hown; [done |].
  simpl. rewrite filter_cons. unfold addTriggerRecord at 2.
  destruct (decide (name d = js "__proto__")) as [Hd|Hd].
  - rewrite decide_False by (by intros []).
    rewrite bool_decide_eq_true_2 by done.
    rewrite Hd, bool_decide_eq_true_2 by done. simpl.
    by rewrite IH.
  - rewrite decide_True by done.
    rewrite bool_decide_eq_false_2 by done. simpl.
    rewrite IH; [done |]. simpl. by rewrite lookup_insert_ne.
Qed.

Lemma map_to_list_foldl_insert (ds : list EmulatedTriggerDefinition) :
  NoDup (name <$> ds) ->
  map_to_list
    (foldl (fun m d => <[name d := {| def := d; enabled := true |}]> m)
       (∅ : gmap (list N) EmulatedTriggerRecord) ds)
  ≡ₚ (fun d => (name d, {| def := d; enabled := true |})) <$> ds
  /\ forall n,
       n ∉ name <$> ds ->
       foldl (fun m d => <[name d := {| def := d; enabled := true |}]> m)
         (∅ : gmap (list N) EmulatedTriggerRecord) ds !! n = None.
Proof.
  induction ds as [|d ds IH] using rev_ind.
  - intros _. simpl. split; [by rewrite map_to_list_empty | intros n _; apply lookup_empty].
  - rewrite fmap_app, NoDup_app. intros (Hnd & Hd & _).
    destruct (IH Hnd) as [IHl IHn]. rewrite foldl_app. simpl. split.
    + rewrite map_to_list_insert.
      * rewrite IHl, fmap_app. simpl. by rewrite Permutation_app_comm.
      * apply IHn. intros Hin. apply (Hd _ Hin). simpl. by left.
    + intros n. rewrite not_elem_of_app, list_elem_of_singleton.
      intros [Hn Hne]. rewrite lookup_insert_ne by done. by apply IHn.
Qed.

(** X3.  Registering definitions with distinct names in an empty registry
    and listing the registry gives back exactly those definitions, each
    once, but for a definition named [__proto__], which is not listed (the
    order of the listing is not modelled). *)
Theorem getTriggerDefinitions_after_setTriggersForTesting
    (ds : list EmulatedTriggerDefinition) :
  NoDup (name <$> ds) ->
  getTriggerDefinitions (setTriggersForTesting ∅ ds)
    ≡ₚ filter (fun d => name d <> js "__proto__") ds.
Proof.
  unfold getTriggerDefinitions, setTriggersForTesting. intros Hnd.
  rewrite own_foldl_addTriggerRecord by done.
  destruct (map_to_list_foldl_insert
              (filter (fun d => name d <> js "__proto__") ds)) as [-> _].
  - eapply sublist_NoDup; [exact Hnd |].
    apply fmap_sublist, sublist_filter.
  - rewrite <- list_fmap_compose.
    rewrite (list_fmap_ext _ id); [by rewrite list_fmap_id | done].
Qed.

Lemma getTriggerDefinitions_after_setTriggersForTesting_witness :
  getTriggerDefinitions (setTriggersForTesting ∅ [onWrite; helloWorld])
    ≡ₚ [onWrite; helloWorld].
Proof.
  apply (getTriggerDefinitions_after_setTriggersForTesting [onWrite; helloWorld]).
  vm_compute. repeat constructor; rewrite ?elem_of_cons, ?elem_of_nil;
    intros H; repeat destruct H as [H|H]; try discriminate H; done.
Defined.

End RegistryMore.

(** ** Further properties: the log decoder *)

Module LogDecoderMore.

Import JSFacts LogDecoder LogDecoderFacts.

Lemma split_Forall_no_sep sep s : Forall (fun l => sep ∉ l) (split sep s).
Proof.
  induction s as [|c s IH]; simpl.
  - repeat constructor. apply not_elem_of_nil.
  - destruct (decide (c = sep)) as [->|Hne].
    + constructor; [apply not_elem_of_nil | done].
    + destruct (split sep s) as [|l ls] eqn:E; [by apply split_nonempty in E |].
      apply Forall_cons in IH as [Hl Hls]. constructor; [|done].
      by apply not_elem_of_cons.
Qed.

Lemma slice_but_last_cons {A} (a : A) (l : list A) :
  l <> [] -> slice_but_last (a :: l) = a :: slice_but_last l.
Proof. by destruct l. Qed.

Lemma last_elem_cons (a : jsstring) (l : list jsstring) :
  l <> [] -> last_elem (a :: l) = last_elem l.
Proof. by destruct l. Qed.

(** The completed lines, each with its separator, followed by the
    unfinished rest are the text that was split. *)
Lemma split_join sep s :
  mjoin ((fun l => l ++ [sep]) <$> slice_but_last (split sep s))
    ++ last_elem (split sep s) = s.
Proof.
  induction s as [|c s IH]; [done |]. simpl.
  destruct (decide (c = sep)) as [->|Hne].
  - rewrite slice_but_last_cons, last_elem_cons by apply split_nonempty.
    simpl. f_equal. exact IH.
  - destruct (split sep s) as [|l ls] eqn:E; [by apply split_nonempty in E |].
    destruct ls as [|l' ls].
    + unfold slice_but_last, last_elem in *. simpl in *. by f_equal.
    + rewrite slice_but_last_cons, last_elem_cons in * by done.
      simpl in *. f_equal. exact IH.
Qed.

(** X4.  Nothing of a stream is lost or parsed twice.  After any sequence
    of chunks, the lines handed to the parser, each followed by a newline,
    and then the content of the buffer are exactly the decoded text of the
    stream; no parsed line and no buffer content holds a newline; and the
    effects are those of the parsed lines in order. *)
Theorem feed_conserves_text (toString : list byte -> jsstring)
    (fromJSON : jsstring -> EmulatorLog) (chunks : list (list byte)) :
  let '(effects, buffer) := feed toString fromJSON [] chunks in
  exists lines,
    effects = lines ≫= onLine fromJSON
    /\ mjoin ((fun l => l ++ [LF]) <$> lines) ++ buffer = decoded toString chunks
    /\ Forall (fun l => LF ∉ l) lines
    /\ (LF ∉ buffer).
Proof.
  rewrite feed_eq by apply not_elem_of_nil. simpl.
  exists (completed_lines (decoded toString chunks)). split_and!.
  - done.
  - apply split_join.
  - unfold completed_lines, slice_but_last.
    pose proof (split_Forall_no_sep LF (decoded toString chunks)) as H.
    rewrite (split_decompose LF (decoded toString chunks)) in H.
    by apply Forall_app in H as [H _].
  - apply last_elem_split_no_sep.
Qed.

End LogDecoderMore.

(** ** Further properties: trigger discovery *)

Module DiscoveryMore.

Import JSFacts Discovery DiscoveryFacts Examples.

(** Decides a closed decidable proposition by evaluating its decision
    procedure. *)
Ltac decide_by_computation :=
  apply (bool_decide_unpack _); vm_compute; exact I.

(** *** Rules for the effects of a computation *)

Section EmitsOnly.

Variable P : Effect -> Prop.

Lemma emits_ret {A} (a : A) : emits_only P (mret a).
Proof. intros em. constructor. Qed.

Lemma emits_reject {A} e : emits_only P (@reject A e).
Proof. intros em. constructor. Qed.

Lemma emits_get : emits_only P get.
Proof. intros em. constructor. Qed.

Lemma emits_modify f : emits_only P (modify f).
Proof. intros em. constructor. Qed.

Lemma emits_effect e : P e -> emits_only P (effect e).
Proof. intros He em. by repeat constructor. Qed.

Lemma emits_bind {A B} (m : M A) (k : A -> M B) :
  emits_only P m -> (forall a, emits_only P (k a)) -> emits_only P (m ≫= k).
Proof.
  intros Hm Hk em. rewrite bind_eq. specialize (Hm em).
  destruct (m em) as [[[a|e] em1] out1]; [|done].
  specialize (Hk a em1). destruct (k a em1) as [[r2 em2] out2].
  by apply Forall_app.
Qed.

Lemma emits_onRejection {A} (m : M A) (h : M unit) :
  emits_only P m -> emits_only P h -> emits_only P (onRejection m h).
Proof.
  intros Hm Hh em. unfold onRejection. specialize (Hm em).
  destruct (m em) as [[[a|e] em1] out1]; [done |].
  specialize (Hh em1). destruct (h em1) as [[r2 em2] out2].
  by apply Forall_app.
Qed.

Lemma emits_forOf {A B} (l : list A) (body : A -> B -> M B) (acc : B) :
  (forall x acc, emits_only P (body x acc)) -> emits_only P (forOf l body acc).
Proof.
  intros Hbody. revert acc. induction l as [|x l IH]; intros acc.
  - apply emits_ret.
  - cbn [forOf]. apply emits_bind; [apply Hbody | apply IH].
Qed.

End EmitsOnly.

#[local] Hint Resolve emits_ret emits_reject emits_get emits_modify
  emits_effect emits_bind emits_onRejection : emulator.

Section Discovery.

Variable Constants : ConstantsTable.
Variable getFunctionService : EmulatedTriggerDefinition -> jsstring.
Variable getFunctionRegion : EmulatedTriggerDefinition -> jsstring.
Variable W : World.

Local Abbreviation registerWithCollaborator :=
  (Discovery.registerWithCollaborator Constants getFunctionService W).
Local Abbreviation setupTrigger :=
  (Discovery.setupTrigger Constants getFunctionService getFunctionRegion W).
Local Abbreviation loadTriggers :=
  (Discovery.loadTriggers Constants getFunctionService getFunctionRegion W).

(** Registration with a collaborator reports nothing. *)
Lemma registerWithCollaborator_no_report pid d :
  emits_only (fun e => reported_name e = None) (registerWithCollaborator pid d).
Proof.
  unfold Discovery.registerWithCollaborator, addFirestoreTrigger,
    addRealtimeDatabaseTrigger, addPubsubTrigger, addAuthTrigger,
    trueOrRethrow, request.
  repeat case_bool_decide; repeat case_match;
    repeat first [ apply emits_bind; [|intros ?] | apply emits_onRejection
                 | apply emits_effect; reflexivity | apply emits_ret
                 | apply emits_reject | apply emits_modify
                 | case_bool_decide | case_match ].
Qed.

Lemma setupTrigger_no_report d acc :
  emits_only (fun e => reported_name e = None) (setupTrigger d acc).
Proof.
  unfold Discovery.setupTrigger.
  apply emits_bind; [apply emits_get | intros em0].
  apply emits_bind.
  - destruct (httpsTrigger d).
    + destruct (getInfo Constants (args em0)). apply emits_ret.
    + apply emits_bind; [apply registerWithCollaborator_no_report |].
      intros ?. apply emits_ret.
  - intros ?. apply emits_bind; [apply emits_modify | intros ?; apply emits_ret].
Qed.

Lemma setupTrigger_results d acc em acc' em' out :
  setupTrigger d acc em = (Ok acc', em', out) ->
  exists desc, acc' = acc ++ [desc] /\ td_name desc = name d.
Proof.
  unfold Discovery.setupTrigger. rewrite bind_eq. cbn [get].
  destruct (httpsTrigger d).
  - destruct (getInfo Constants (args em)) as [h p].
    intros [= <- <- <-]. eauto.
  - rewrite !bind_eq.
    destruct (registerWithCollaborator (projectId (args em)) d em)
      as [[[added|e] em1] out1]; [|done].
    intros [= <- <- <-]. eauto.
Qed.

Lemma forOf_setupTrigger_results l acc em results em' out :
  forOf l setupTrigger acc em = (Ok results, em', out) ->
  td_name <$> results = (td_name <$> acc) ++ (name <$> l).
Proof.
  revert acc em out. induction l as [|d l IH]; intros acc em out.
  - intros [= <- <- <-]. by rewrite app_nil_r.
  - cbn [forOf]. rewrite bind_eq.
    destruct (setupTrigger d acc em) as [[[acc1|e] em1] out1] eqn:E1; [|done].
    destruct (forOf l setupTrigger acc1 em1) as [[r2 em2] out2] eqn:E2.
    intros [= -> <- <-].
    apply setupTrigger_results in E1 as (desc & -> & Hname).
    apply IH in E2. rewrite E2, fmap_app, <- (assoc_L (++)). simpl.
    by rewrite Hname.
Qed.

Lemma setupTrigger_https d acc em :
  httpsTrigger d = true ->
  setupTrigger d acc em
    = (Ok (acc ++
             [{| td_name := name d; td_entryPoint := entryPoint d;
                 td_type := js "http"; td_labels := labels d;
                 td_details :=
                   Some (getHttpFunctionUrl (getInfo Constants (args em)).1
                           (getInfo Constants (args em)).2
                           (projectId (args em)) (name d) (getFunctionRegion d));
                 td_ignored := None |}]),
       set_triggers (fun t => addTriggerRecord t d) em, []).
Proof.
  intros Hd. unfold Discovery.setupTrigger. rewrite bind_get, Hd.
  destruct (getInfo Constants (args em)) as [h p]. reflexivity.
Qed.

(** [loadTriggers] in terms of its loop. *)
Lemma loadTriggers_trace defs em :
  loadTriggers (Ok defs) em
    = match forOf (toSetup em defs) setupTrigger [] em with
      | (Ok results, em1, out1) =>
          (Ok tt, em1,
           WorkerPoolRefresh :: InvokeDiagnosticRuntime :: out1
             ++ (LogSuccessInitialized
                   <$> List.filter (fun r => negb (is_ignored r)) results)
             ++ (LogBulletIgnored <$> List.filter is_ignored results))
      | (Throw e, em1, out1) =>
          (Throw e, em1, WorkerPoolRefresh :: InvokeDiagnosticRuntime :: out1)
      end.
Proof.
  unfold Discovery.loadTriggers.
  rewrite bind_effect, bind_effect, bind_ret, bind_get, bind_eq.
  destruct (forOf (toSetup em defs) setupTrigger [] em)
    as [[[results|e] em1] out1]; [|done].
  rewrite bind_eq, !forOf_effect_spec. done.
Qed.

End Discovery.

Lemma omap_reported_none (out : list Effect) :
  Forall (fun e => reported_name e = None) out -> reported_names out = [].
Proof.
  unfold reported_names. induction 1 as [|e out He _ IH]; [done |].
  simpl. by rewrite He.
Qed.

Lemma filter_complement_perm {A} (f : A -> bool) (l : list A) :
  List.filter (fun x => negb (f x)) l ++ List.filter f l ≡ₚ l.
Proof.
  induction l as [|x l IH]; [done |]. simpl. destruct (f x); simpl.
  - rewrite <- Permutation_middle. by constructor.
  - by constructor.
Qed.

(** X5.  When [loadTriggers] returns, its report names every definition
    that was set up exactly once, as initialized or as ignored, and nothing
    else; when it rejects, nothing is reported, not even the triggers that
    were set up and registered before the failure. *)
Theorem discovery_reports_each_new_trigger_once
    (Constants : ConstantsTable)
    (getFunctionService getFunctionRegion : EmulatedTriggerDefinition -> jsstring)
    (W : World) (defs : list EmulatedTriggerDefinition) (em : Emulator) :
  match loadTriggers Constants getFunctionService getFunctionRegion W (Ok defs) em with
  | (Ok _, _, out) => reported_names out ≡ₚ name <$> toSetup em defs
  | (Throw _, _, out) => reported_names out = []
  end.
Proof.
  rewrite loadTriggers_trace.
  pose proof (emits_forOf _ (toSetup em defs)
                (setupTrigger Constants getFunctionService getFunctionRegion W)
                [] (setupTrigger_no_report _ _ _ _) em) as Hloop.
  destruct (forOf _ _ _ em) as [[[results|e] em1] out1] eqn:E; simpl in Hloop.
  - apply forOf_setupTrigger_results in E. simpl in E. rewrite <- E.
    unfold reported_names. simpl. rewrite !omap_app.
    fold (reported_names out1). rewrite omap_reported_none by done. simpl.
    rewrite <- (filter_complement_perm is_ignored results) at 3.
    rewrite fmap_app.
    assert (forall (c : TriggerDescription -> Effect)
              (rs : list TriggerDescription),
              (forall r, reported_name (c r) = Some (td_name r)) ->
              omap reported_name (c <$> rs) = td_name <$> rs) as Hmap.
    { intros c rs Hc. induction rs as [|r rs IH]; [done |].
      simpl. rewrite Hc. simpl. by f_equal. }
    by rewrite !Hmap.
  - unfold reported_names. simpl. by apply omap_reported_none.
Qed.

(** X6.  HTTPS functions are set up without any collaborator: when every
    definition that is set up (those under whose names the registry reads
    nothing) is an HTTPS trigger, [loadTriggers] returns whatever the state
    of the other emulators, registers these definitions in order, and its
    effects are the two steps of the diagnostic run followed by one success
    line per definition with the URL
    [http://host:port/project/region/name], where an empty host and a port
    of zero are replaced by the defaults and the port, a number below
    [10^21], is written with all its digits. *)
Theorem https_discovery_needs_no_collaborator
    (Constants : ConstantsTable)
    (getFunctionService getFunctionRegion : EmulatedTriggerDefinition -> jsstring)
    (W : World) (defs : list EmulatedTriggerDefinition) (em : Emulator) :
  (forall d, d ∈ toSetup em defs -> httpsTrigger d = true) ->
  let '(host, port) := getInfo Constants (args em) in
  (port < 10 ^ 21)%N ->
  let describe d :=
    {| td_name := name d; td_entryPoint := entryPoint d; td_type := js "http";
       td_labels := labels d;
       td_details := Some (js "http://" ++ host ++ js ":" ++ js (pretty port)
                             ++ js "/" ++ projectId (args em) ++ js "/"
                             ++ getFunctionRegion d ++ js "/" ++ name d);
       td_ignored := None |} in
  loadTriggers Constants getFunctionService getFunctionRegion W (Ok defs) em
    = (Ok tt,
       set_triggers (fun t => foldl addTriggerRecord t (toSetup em defs)) em,
       WorkerPoolRefresh :: InvokeDiagnosticRuntime
         :: (LogSuccessInitialized <$> (describe <$> toSetup em defs)))
  /\ (host <> [] \/ getDefaultHost Constants = [])
  /\ (port <> 0%N \/ getDefaultPort Constants = 0%N).
Proof.
  intros Hall. destruct (getInfo Constants (args em)) as [host port] eqn:Einfo.
  intros _ describe. split.
  - rewrite loadTriggers_trace.
    assert (forall l acc em0, args em0 = args em ->
              (forall d, d ∈ l -> httpsTrigger d = true) ->
              forOf l (setupTrigger Constants getFunctionService getFunctionRegion W)
                acc em0
              = (Ok (acc ++ (describe <$> l)),
                 set_triggers (fun t => foldl addTriggerRecord t l) em0, []))
      as Hloop.
    { induction l as [|d l IH]; intros acc em0 Ha Hl.
      - cbn. rewrite app_nil_r. by destruct em0.
      - cbn [forOf]. rewrite bind_eq, setupTrigger_https by (apply Hl; by left).
        rewrite IH; [| done | by intros; apply Hl; right].
        rewrite Ha, Einfo. cbn. rewrite <- (assoc_L (++)). done. }
    rewrite Hloop by done. cbn [app].
    assert (forall l, List.filter (fun r => negb (is_ignored r)) (describe <$> l)
                      = describe <$> l
                      /\ List.filter is_ignored (describe <$> l) = []) as Hf.
    { induction l as [|d l [IH1 IH2]]; [done |].
      rewrite fmap_cons. cbn [List.filter].
      change (is_ignored (describe d)) with false. cbn [negb].
      by rewrite IH1, IH2. }
    destruct (Hf (toSetup em defs)) as [-> ->]. simpl. by rewrite app_nil_r.
  - unfold getInfo in Einfo. injection Einfo as <- <-. split.
    + destruct (host (args em)) as [[|c h]|]; [| by left |];
        (destruct (getDefaultHost Constants); [by right | by left]).
    + destruct (port (args em)) as [p|].
      * case_bool_decide; [|by left].
        destruct (decide (getDefaultPort Constants = 0%N)); [by right | by left].
      * destruct (decide (getDefaultPort Constants = 0%N)); [by right | by left].
Qed.

Lemma https_discovery_needs_no_collaborator_witness :
  exampleLoadTriggers requestsFail
    (Ok [MoreExamples.constructorFunction; helloWorld]) emptyEmulator
  = (Ok tt,
     set_triggers (fun t => addTriggerRecord t helloWorld) emptyEmulator,
     [WorkerPoolRefresh; InvokeDiagnosticRuntime;
      LogSuccessInitialized
        {| td_name := js "helloWorld"; td_entryPoint := js "helloWorld";
           td_type := js "http"; td_labels := [];
           td_details := Some (js "http://localhost:5001/demo/us-central1/helloWorld");
           td_ignored := None |}]).
Proof.
  pose proof (https_discovery_needs_no_collaborator exampleConstants
                exampleService exampleRegion requestsFail
                [MoreExamples.constructorFunction; helloWorld]
                emptyEmulator) as H.
  assert (forall d,
            d ∈ toSetup emptyEmulator [MoreExamples.constructorFunction; helloWorld] ->
            httpsTrigger d = true)
    as Hall.
  { intros d [Hd _]%toSetup_unseen. revert Hd.
    rewrite !elem_of_cons, elem_of_nil. by intros [->|[->|[]]]. }
  specialize (H Hall).
  change (getInfo exampleConstants (args emptyEmulator))
    with (js "localhost", 5001%N) in H.
  cbv beta iota zeta in H. destruct H as [H _]; [reflexivity |].
  unfold exampleLoadTriggers. rewrite H. vm_compute. reflexivity.
Defined.

(** X7.  When neither the database, nor the Firestore, nor the Pub/Sub
    emulator is running, discovery contacts no collaborator at all and
    always returns, whatever definitions it is given. *)
Theorem discovery_without_collaborators
    (Constants : ConstantsTable)
    (getFunctionService getFunctionRegion : EmulatedTriggerDefinition -> jsstring)
    (W : World) (defs : list EmulatedTriggerDefinition) (em : Emulator) :
  registry_database W = None ->
  registry_firestore W = None ->
  registry_pubsubPort W = None ->
  let '(r, _, out) :=
    loadTriggers Constants getFunctionService getFunctionRegion W (Ok defs) em in
  r = Ok tt /\ Forall (fun e => is_collaborator_call e = false) out.
Proof.
  intros Hdb Hfs Hps.
  assert (forall pid d,
            emits_only (fun e => is_collaborator_call e = false)
              (registerWithCollaborator Constants getFunctionService W pid d))
    as Hreg.
  { intros pid d.
    unfold registerWithCollaborator, addFirestoreTrigger,
      addRealtimeDatabaseTrigger, addPubsubTrigger, addAuthTrigger.
    rewrite Hdb, Hfs, Hps.
    repeat case_bool_decide;
      repeat first [ apply emits_bind; [|intros ?] | apply emits_effect; reflexivity
                   | apply emits_ret | apply emits_modify ]. }
  assert (forall d acc,
            emits_only (fun e => is_collaborator_call e = false)
              (setupTrigger Constants getFunctionService getFunctionRegion W d acc))
    as Hsetup.
  { intros d acc. unfold setupTrigger.
    apply emits_bind; [apply emits_get | intros em0].
    apply emits_bind.
    - destruct (httpsTrigger d).
      + destruct (getInfo Constants (args em0)). apply emits_ret.
      + apply emits_bind; [apply Hreg | intros ?; apply emits_ret].
    - intros ?. apply emits_bind; [apply emits_modify | intros ?; apply emits_ret]. }
  pose proof (emits_forOf _ (toSetup em defs) _ [] Hsetup em) as Hloop.
  rewrite loadTriggers_trace.
  destruct (forOf _ _ _ em) as [[[results|e] em1] out1] eqn:E; simpl in Hloop.
  - split; [done |]. repeat constructor.
    rewrite !Forall_app. split_and!; [done | |];
      apply Forall_fmap, Forall_true; done.
  - apply forOf_setupTrigger_spec in E as (_ & _ & E).
    destruct E as (? & failing & ? & em0 & em2 & out2 & _ & _ & _ & Hr).
    apply registerWithCollaborator_rejects in Hr.
    rewrite Hdb, Hfs in Hr. destruct Hr as [[_ []]|[_ []]]; done.
Qed.

Lemma discovery_without_collaborators_witness :
  let '(r, _, out) :=
    exampleLoadTriggers noneRunning
      (Ok [onWrite; onCreate; MoreExamples.onPublish; helloWorld]) emptyEmulator in
  r = Ok tt /\ Forall (fun e => is_collaborator_call e = false) out.
Proof.
  apply (discovery_without_collaborators exampleConstants exampleService
           exampleRegion noneRunning
           [onWrite; onCreate; MoreExamples.onPublish; helloWorld] emptyEmulator);
    reflexivity.
Defined.

(** X8.  [DATABASE_PATH_PATTERN] decides the shape of a resource.  When it
    matches, the resource is [projects/P/instances/I/refs/R] with a
    non-empty project [P] and a non-empty instance [I] that hold no [/], and
    a rest [R] that holds no line terminator, and the match array is the
    resource, [I] and [/R]; when it does not match, the resource has no such
    decomposition. *)
Theorem database_pattern_accepts_exactly (s : jsstring) :
  let wellformed project instance rest :=
    s = js "projects/" ++ project ++ js "/instances/" ++ instance
          ++ js "/refs" ++ SLASH :: rest
    /\ project <> [] /\ (SLASH ∉ project)
    /\ instance <> [] /\ (SLASH ∉ instance)
    /\ forallb dot rest = true in
  match DATABASE_PATH_PATTERN_exec s with
  | Some result =>
      exists project instance rest,
        result = [s; instance; SLASH :: rest] /\ wellformed project instance rest
  | None => forall project instance rest, ~ wellformed project instance rest
  end.
Proof.
  intros wellformed. subst wellformed. cbv beta.
  destruct (DATABASE_PATH_PATTERN_exec s) as [result|] eqn:E.
  - destruct (DATABASE_PATH_PATTERN_exec_shape _ _ E) as (instance & path & -> & _).
    apply DATABASE_PATH_PATTERN_exec_Some in E
      as (_ & project & rest & Hs & ? & ? & ? & ? & -> & ?).
    by exists project, instance, rest.
  - intros project instance rest (Hs & ? & ? & ? & ? & ?).
    assert (DATABASE_PATH_PATTERN_exec s = Some [s; instance; SLASH :: rest]) as E'.
    { apply DATABASE_PATH_PATTERN_exec_Some. split; [done |].
      by exists project, rest. }
    congruence.
Qed.

(** X9.  Registering a database trigger on a well-formed resource while the
    database emulator runs makes exactly one request: a POST to
    [/.settings/functionTriggers.json?ns=I] at the emulator, whose bundle
    carries the path group, the event type and the function and topic names
    built from the project and the trigger name.  The registration returns
    [true] when the request is fulfilled and otherwise logs a warning and
    rejects; the emulator object is not changed. *)
Theorem addRealtimeDatabaseTrigger_wellformed (W : World)
    (pid db project instance rest : jsstring) (d : EmulatedTriggerDefinition)
    (et : EventTrigger) (em : Emulator) :
  registry_database W = Some db ->
  eventTrigger d = Some et ->
  resource et = js "projects/" ++ project ++ js "/instances/" ++ instance
                  ++ js "/refs" ++ SLASH :: rest ->
  project <> [] -> SLASH ∉ project ->
  instance <> [] -> SLASH ∉ instance ->
  forallb dot rest = true ->
  let req :=
    {| api_method := js "POST";
       api_path := js "/.settings/functionTriggers.json" ++ js "?ns=" ++ instance;
       api_origin := js "http://" ++ db;
       api_data :=
         DatabaseData
           {| db_name := js "projects/" ++ pid ++ js "/locations/_/functions/"
                           ++ name d;
              db_path := SLASH :: rest;
              db_event := eventType et;
              db_topic := js "projects/" ++ pid ++ js "/topics/" ++ name d |} |} in
  addRealtimeDatabaseTrigger W pid d em
    = if api_request W req
      then (Ok true, em,
            [LoggerDebug (js "addRealtimeDatabaseTrigger"); ApiCall req])
      else (Throw RequestError, em,
            [LoggerDebug (js "addRealtimeDatabaseTrigger"); ApiCall req;
             LogWarnErrorAddingTrigger]).
Proof.
  intros Hdb Het Hres Hp1 Hp2 Hi1 Hi2 Hdot req.
  unfold addRealtimeDatabaseTrigger. rewrite Hdb, Het.
  rewrite (proj2 (DATABASE_PATH_PATTERN_exec_Some (resource et) (resource et)
                    instance (SLASH :: rest))).
  2:{ split; [done |]. exists project, rest. done. }
  rewrite bool_decide_eq_true_2 by done.
  unfold trueOrRethrow, request. run_M. fold req.
  by destruct (api_request W req).
Qed.

Lemma addRealtimeDatabaseTrigger_wellformed_witness :
  (addRealtimeDatabaseTrigger allRunning (js "demo") onWrite emptyEmulator).1
  = (Ok true, emptyEmulator).
Proof.
  pose proof (addRealtimeDatabaseTrigger_wellformed allRunning (js "demo")
                (js "localhost:9000") (js "_") (js "myns") (js "foo/bar") onWrite
                {| resource := js "projects/_/instances/myns/refs/foo/bar";
                   eventType := js "providers/google.firebase.database/eventTypes/ref.write";
                   service := js "firebaseio.com" |}
                emptyEmulator eq_refl eq_refl eq_refl) as H.
  cbv zeta in H. rewrite H.
  - reflexivity.
  - discriminate.
  - decide_by_computation.
  - discriminate.
  - decide_by_computation.
  - reflexivity.
Defined.

Lemma split_no_sep_prefix sep (r t : jsstring) :
  sep ∉ r -> split sep (r ++ sep :: t) = r :: split sep t.
Proof.
  induction r as [|c r IH]; simpl.
  - intros _. by rewrite decide_True.
  - rewrite not_elem_of_cons. intros [Hne Hr].
    rewrite decide_False by done. by rewrite IH.
Qed.

(** What follows the last separator is the last element of [split]. *)
Lemma last_elem_split_suffix sep (p t : jsstring) :
  sep ∉ t -> last_elem (split sep (p ++ sep :: t)) = t.
Proof.
  intros Ht. rewrite LogDecoderFacts.split_app.
  rewrite split_no_sep_prefix by apply LogDecoderFacts.last_elem_split_no_sep.
  rewrite (LogDecoderFacts.split_no_sep sep t) by done.
  by rewrite LogDecoderFacts.last_elem_app.
Qed.

(** X10.  [addPubsubTrigger] never rejects and never changes the emulator
    object: a failure of the Pub/Sub emulator comes back as [false].  When
    the Pub/Sub emulator has a port and the definition has an event trigger,
    it subscribes the trigger name to one topic: [firebase-schedule-] and
    the trigger name for a scheduled function, and otherwise what follows
    the last [/] of the resource. *)
Theorem addPubsubTrigger_topic (W : World) (pid : jsstring)
    (d : EmulatedTriggerDefinition) (em : Emulator) :
  (exists added out, addPubsubTrigger W pid d em = (Ok added, em, out))
  /\ (forall port et,
        registry_pubsubPort W = Some port -> port <> 0%N ->
        eventTrigger d = Some et ->
        (schedule d = true ->
           let topic := js "firebase-schedule-" ++ name d in
           addPubsubTrigger W pid d em
             = (Ok (pubsub_addTrigger W topic (name d)), em,
                [LoggerDebug (js "addPubsubTrigger");
                 PubsubAddTrigger topic (name d)]))
        /\ (forall prefix topic,
              schedule d = false ->
              resource et = prefix ++ SLASH :: topic -> SLASH ∉ topic ->
              addPubsubTrigger W pid d em
                = (Ok (pubsub_addTrigger W topic (name d)), em,
                   [LoggerDebug (js "addPubsubTrigger");
                    PubsubAddTrigger topic (name d)]))).
Proof.
  split.
  - unfold addPubsubTrigger.
    destruct (registry_pubsubPort W) as [[|p]|]; [by eexists _, _ | | by eexists _, _].
    destruct (eventTrigger d); by eexists _, _.
  - intros port et Hport Hnz Het. unfold addPubsubTrigger. rewrite Hport, Het.
    destruct port as [|p]; [done |]. split.
    + intros ->. reflexivity.
    + intros prefix topic -> Hres Htopic.
      rewrite Hres, last_elem_split_suffix by done. reflexivity.
Qed.

Lemma addPubsubTrigger_topic_witness :
  addPubsubTrigger allRunning (js "demo") MoreExamples.onPublish emptyEmulator
  = (Ok true, emptyEmulator,
     [LoggerDebug (js "addPubsubTrigger");
      PubsubAddTrigger (js "news") (js "onPublish")]).
Proof.
  apply (proj2 (proj2 (addPubsubTrigger_topic allRunning (js "demo")
                         MoreExamples.onPublish emptyEmulator)
                  8085%N
                  {| resource := js "projects/demo/topics/news";
                     eventType := js "google.pubsub.topic.publish";
                     service := js "pubsub.googleapis.com" |}
                  eq_refl ltac:(discriminate) eq_refl)
           (js "projects/demo/topics") (js "news") eq_refl eq_refl).
  decide_by_computation.
Defined.

End DiscoveryMore.

(** ** Further properties: the request router *)

Module HubMore.

Import JSFacts RegistryFacts Discovery DiscoveryFacts DiscoveryMore Hub HubFacts
  Examples.

Section Handlers.

Variable toString : list byte -> jsstring.
Variable JSON_parse : jsstring -> option json.
Variable getFunctionService : EmulatedTriggerDefinition -> jsstring.
Variable SERVICE_REALTIME_DATABASE : jsstring.
Variable getFunctionService_undefined : Result jsstring.

Local Abbreviation backgroundHandler :=
  (Hub.backgroundHandler toString JSON_parse).
Local Abbreviation multicastHandler :=
  (Hub.multicastHandler toString JSON_parse).
Local Abbreviation handleBackgroundTrigger :=
  (Hub.handleBackgroundTrigger getFunctionService SERVICE_REALTIME_DATABASE
     getFunctionService_undefined).
Local Abbreviation runBackgroundTask :=
  (Hub.runBackgroundTask getFunctionService SERVICE_REALTIME_DATABASE
     getFunctionService_undefined).

(** X11.  After [disableBackgroundTriggers], a background request with a
    JSON body that names a registered event trigger is answered 204 and
    queues nothing, whatever the flag of the trigger was before; a request
    that names an enabled HTTPS function is still queued. *)
Theorem disabled_event_triggers_are_dropped (req : Request) (em : Emulator)
    (record : EmulatedTriggerRecord) (proto : json) :
  triggers em !! params_trigger_name req = Some record ->
  JSON_parse (toString (rawBody req)) = Some proto ->
  let em' := set_triggers disableBackgroundTriggers em in
  (is_Some (eventTrigger (def record)) ->
     backgroundHandler req em'
       = (Ok tt, em',
          [LogDebugIgnoringBackgroundTrigger (url req); Respond 204 NoBody]))
  /\ (eventTrigger (def record) = None -> enabled record = true ->
        backgroundHandler req em'
          = (Ok tt,
             set_workQueue
               (fun q => q ++ [BackgroundTask req (params_project_id req)
                                 (params_trigger_name req) proto]) em',
             [])).
Proof.
  intros Hrecord Hparse em'.
  assert (triggers em' !! params_trigger_name req
          = Some match eventTrigger (def record) with
                 | Some _ => {| def := def record; enabled := false |}
                 | None => record
                 end) as Hlook.
  { subst em'. rewrite lookup_own in *. cbn.
    by rewrite lookup_fmap, Hrecord. }
  unfold Hub.backgroundHandler, parseBody.
  rewrite Hparse, bind_ret, bind_get, (read_own _ _ _ Hlook).
  split.
  - intros [et ->]. done.
  - intros -> ->. done.
Qed.

(** X12.  A subscriber registered by [addAuthTrigger] is served by the next
    fan-out request for its event type: the handler queues the tasks of the
    earlier subscribers and then one task for the new one, addressed by the
    entry point of the definition and carrying the project of the
    request. *)
Theorem auth_trigger_receives_multicast (d : EmulatedTriggerDefinition)
    (et : EventTrigger) (em : Emulator) (req : Request) (proto : json) :
  eventTrigger d = Some et ->
  JSON_parse (toString (rawBody req)) = Some proto ->
  template_eventType proto = Ok (eventType et) ->
  let earlier :=
    default [] (multicastTriggers em
                  !! (args_projectId em ++ js ":" ++ eventType et)) in
  let task triggerId :=
    MulticastTask req (params_project_id req) triggerId proto in
  exists em1 out1,
    addAuthTrigger (args_projectId em) d em = (Ok true, em1, out1)
    /\ multicastHandler req em1
       = (Ok tt,
          set_workQueue (fun q => q ++ (task <$> earlier) ++ [task (entryPoint d)])
            em1,
          [Respond 200 JsonMulticastAcknowledged]).
Proof.
  intros Het Hparse Htype earlier task.
  unfold addAuthTrigger. rewrite Het, bind_effect, bind_eq. cbn [modify].
  eexists _, _. split; [reflexivity |].
  unfold Hub.multicastHandler, parseBody.
  rewrite Hparse, bind_ret, bind_get, Htype, bind_ret.
  cbn [multicastTriggers set_multicastTriggers args_projectId args].
  rewrite lookup_insert_eq. cbn [default].
  rewrite bind_eq, forOf_submit_spec. cbn. by rewrite fmap_app.
Qed.

(** X13.  Fan-out tasks are addressed by entry point, but the registry is
    keyed by name.  For a registered trigger whose entry point differs from
    its name, and under whose entry point the registry reads nothing (a
    function exported from a group), the invocation that a fan-out task
    makes is rejected by the lookup with "No trigger with name ...", and no
    runtime is started. *)
Theorem multicast_task_of_grouped_function_is_rejected
    (d : EmulatedTriggerDefinition) (em : Emulator) (projectId : jsstring)
    (events : list WorkerEvent) :
  name d <> js "__proto__" ->
  entryPoint d <> name d ->
  read (triggers em) (entryPoint d) = IsFalsy ->
  let em' := set_triggers (fun t => addTriggerRecord t d) em in
  triggers em' !! name d = Some {| def := d; enabled := true |}
  /\ handleBackgroundTrigger em' projectId (entryPoint d) events
     = ([], Rejected (FirebaseError (js "No trigger with name " ++ entryPoint d))).
Proof.
  intros Hproto Hne Hnone em'. subst em'. cbn. split.
  - by apply lookup_addTriggerRecord.
  - apply handleBackgroundTrigger_unknown. cbn.
    by rewrite read_addTriggerRecord_ne.
Qed.

(** X14.  The project check compares a prefix only.  An invocation for a
    project other than the one of the emulator passes the check for every
    database trigger on [projects/_/instances/I/...] whose instance [I]
    starts with the requested project: the requested project need not be
    the instance of the trigger. *)
Theorem project_check_accepts_prefix_of_instance (em : Emulator)
    (projectId triggerId instance rest : jsstring) (events : list WorkerEvent)
    (record : EmulatedTriggerRecord) (et : EventTrigger) :
  triggers em !! triggerId = Some record ->
  getFunctionService (def record) = SERVICE_REALTIME_DATABASE ->
  eventTrigger (def record) = Some et ->
  resource et = js "projects/_/instances/" ++ instance ++ rest ->
  projectId `prefix_of` instance ->
  (handleBackgroundTrigger em projectId triggerId events).2 = settle events.
Proof.
  intros Hrecord Hservice Het Hres Hprefix.
  rewrite (handleBackgroundTrigger_known _ _ _ _ _ _ _ _ Hrecord). cbv zeta.
  rewrite Hservice, Het.
  assert (startsWith (resource et) (js "projects/_/instances/" ++ projectId) = true)
    as ->.
  { apply startsWith_prefix. rewrite Hres. destruct Hprefix as [k ->].
    exists (k ++ rest). by rewrite <- !(assoc_L (++)). }
  rewrite (bool_decide_eq_false_2 (_ ≠ SERVICE_REALTIME_DATABASE)) by (by intros []).
  by case_bool_decide.
Qed.

(** X15.  A runtime is started for every invocation of a trigger that has
    a record, before the project is checked: also an invocation that the
    check rejects with 404 has started one.  An invocation under a name
    that reads as nothing starts none and has no effect at all.  Under a
    name that the registry object inherits, the lookup returns [undefined]:
    the invocation is rejected, with no effect, by what
    [getFunctionService] throws when handed [undefined], or, should it
    return a service, starts a runtime like any other. *)
Theorem runtime_started_before_project_check (em : Emulator)
    (projectId triggerId : jsstring) (events : list WorkerEvent) :
  (read (triggers em) triggerId = IsFalsy ->
     handleBackgroundTrigger em projectId triggerId events
       = ([], Rejected (FirebaseError (js "No trigger with name " ++ triggerId))))
  /\ (is_Some (triggers em !! triggerId) ->
        exists rest,
          (handleBackgroundTrigger em projectId triggerId events).1
            = StartFunctionRuntime triggerId BACKGROUND :: rest)
  /\ (read (triggers em) triggerId = IsOther ->
        match getFunctionService_undefined with
        | Throw e =>
            handleBackgroundTrigger em projectId triggerId events
              = ([], Rejected e)
        | Ok _ =>
            exists rest,
              (handleBackgroundTrigger em projectId triggerId events).1
                = StartFunctionRuntime triggerId BACKGROUND :: rest
        end).
Proof.
  split_and!.
  - apply handleBackgroundTrigger_unknown.
  - intros [record Hrecord].
    rewrite (handleBackgroundTrigger_known _ _ _ _ _ _ _ _ Hrecord). cbv zeta.
    repeat case_bool_decide; repeat case_match; cbn; eauto.
  - intros Hread. unfold Hub.handleBackgroundTrigger, getTriggerDefinitionByName.
    rewrite Hread. cbn [serviceOf].
    destruct getFunctionService_undefined as [service|e]; [|done].
    repeat case_bool_decide; cbn; eauto.
Qed.

Lemma handleBackgroundTrigger_no_response em projectId triggerId events :
  responses (handleBackgroundTrigger em projectId triggerId events).1 = [].
Proof.
  unfold Hub.handleBackgroundTrigger, getTriggerDefinitionByName.
  repeat case_match; repeat case_bool_decide; done.
Qed.

Lemma settle_quiet_prefix (pre rest : list WorkerEvent) :
  Forall (fun e => exists el, e = WorkerLog el /\ level el <> FATAL) pre ->
  settle (pre ++ rest) = settle rest.
Proof.
  induction 1 as [|e pre (el & -> & Hel) _ IH]; [done |].
  simpl. by rewrite bool_decide_eq_false_2.
Qed.

(** X16.  A background task answers its request at most once, and with the
    first event that settles the invocation.  For a trigger that the
    registry knows, invoked for the project of the emulator: logs below
    [FATAL] are passed over; a [FATAL] log that comes first is answered with
    status 500 and the text of the log (a bare 500 when the text is empty);
    the end of the invocation that comes first is answered with the
    acknowledgment; and while neither has come there is no answer. *)
Theorem background_task_answers_once (em : Emulator) (req : Request)
    (triggerId : jsstring) (record : EmulatedTriggerRecord)
    (pre post : list WorkerEvent) :
  triggers em !! triggerId = Some record ->
  Forall (fun e => exists el, e = WorkerLog el /\ level el <> FATAL) pre ->
  let answer events :=
    responses (runBackgroundTask em req (args_projectId em) triggerId events) in
  answer pre = []
  /\ answer (pre ++ WorkerDone :: post) = [Respond 200 JsonAcknowledged]
  /\ (forall el, level el = FATAL ->
        answer (pre ++ WorkerLog el :: post)
          = match text el with
            | [] => [SendStatus 500]
            | c :: t => [Respond 500 (TextBody (c :: t))]
            end).
Proof.
  intros Hrecord Hpre answer.
  assert (forall events,
            answer events
            = match settle events with
              | Resolved => [Respond 200 JsonAcknowledged]
              | Rejected (ErrorBundle code body) =>
                  match body with
                  | Some (c :: b) => [Respond code (TextBody (c :: b))]
                  | _ => [SendStatus code]
                  end
              | Rejected _ => [SendStatusUndefined]
              | Pending => []
              end) as Hanswer.
  { intros events. subst answer. cbv beta.
    pose proof (handleBackgroundTrigger_no_response em (args_projectId em)
                  triggerId events) as Hno.
    assert ((handleBackgroundTrigger em (args_projectId em) triggerId events).2
            = settle events) as Hout.
    { rewrite (handleBackgroundTrigger_known _ _ _ _ _ _ _ _ Hrecord).
      cbv zeta. by rewrite bool_decide_eq_false_2 by (by intros []). }
    unfold Hub.runBackgroundTask.
    destruct (handleBackgroundTrigger em (args_projectId em) triggerId events)
      as [effects outcome]. simpl in Hno, Hout. subst outcome.
    unfold responses in *. cbn [List.filter is_response].
    rewrite List.filter_app, Hno. cbn [app].
    destruct (settle events) as [|[]|]; try done.
    by destruct body as [[|c b]|]. }
  rewrite !Hanswer, !settle_quiet_prefix by done. split_and!.
  - by rewrite <- (app_nil_r pre), settle_quiet_prefix.
  - done.
  - intros el Hel. rewrite Hanswer, settle_quiet_prefix by done.
    simpl. rewrite bool_decide_eq_true_2 by done.
    by destruct (text el).
Qed.

(** X17.  A background request with a JSON body under whose trigger name
    the registry reads nothing is queued like any other; when its task
    runs, the lookup fails, no runtime is started, and the request is
    answered through [res.sendStatus] with the missing [code] of the error,
    not with 404.  A request under a name that the registry object inherits
    (such as [constructor]) is not queued: the value read is truthy and has
    no [enabled], so the request is answered 204 like one for a disabled
    trigger. *)
Theorem unknown_trigger_is_queued_then_fails (req : Request) (em : Emulator)
    (proto : json) (events : list WorkerEvent) :
  JSON_parse (toString (rawBody req)) = Some proto ->
  (read (triggers em) (params_trigger_name req) = IsFalsy ->
     backgroundHandler req em
       = (Ok tt,
          set_workQueue
            (fun q => q ++ [BackgroundTask req (params_project_id req)
                              (params_trigger_name req) proto]) em,
          [])
     /\ runBackgroundTask em req (params_project_id req)
          (params_trigger_name req) events
        = [LogDebugAccepted (url req) (params_trigger_name req);
           SendStatusUndefined])
  /\ (read (triggers em) (params_trigger_name req) = IsOther ->
        backgroundHandler req em
          = (Ok tt, em,
             [LogDebugIgnoringBackgroundTrigger (url req); Respond 204 NoBody])).
Proof.
  intros Hparse. split.
  - intros Hnone. split.
    + unfold Hub.backgroundHandler, parseBody.
      by rewrite Hparse, bind_ret, bind_get, Hnone.
    + unfold Hub.runBackgroundTask.
      by rewrite handleBackgroundTrigger_unknown.
  - intros Hother. unfold Hub.backgroundHandler, parseBody.
    by rewrite Hparse, bind_ret, bind_get, Hother.
Qed.

End Handlers.

Lemma disabled_event_triggers_are_dropped_witness :
  let em := set_triggers
              (fun _ => {[ js "onWrite" := {| def := onWrite; enabled := true |} ]})
              emptyEmulator in
  let em' := set_triggers disableBackgroundTriggers em in
  Hub.backgroundHandler Utf8.toString exampleParse (backgroundRequest (js "{}")) em'
  = (Ok tt, em',
     [LogDebugIgnoringBackgroundTrigger
        (js "/functions/projects/demo/triggers/onWrite");
      Respond 204 NoBody]).
Proof.
  intros em em'.
  apply (proj1 (disabled_event_triggers_are_dropped Utf8.toString exampleParse
                  (backgroundRequest (js "{}")) em
                  {| def := onWrite; enabled := true |} (JObject [])
                  ltac:(vm_compute; reflexivity) ltac:(vm_compute; reflexivity))).
  by eexists.
Defined.

Lemma auth_trigger_receives_multicast_witness :
  let req := multicastRequest (eventBody (js "user.create")) in
  exists em1 out1 proto,
    addAuthTrigger (js "demo") MoreExamples.onUserCreate emptyEmulator
      = (Ok true, em1, out1)
    /\ Hub.multicastHandler Utf8.toString exampleParse req em1
       = (Ok tt,
          set_workQueue
            (fun q => q ++ [MulticastTask req (js "demo") (js "users.onCreate")
                              proto]) em1,
          [Respond 200 JsonMulticastAcknowledged]).
Proof.
  intros req.
  destruct (auth_trigger_receives_multicast Utf8.toString exampleParse
              MoreExamples.onUserCreate
              {| resource := js "projects/demo"; eventType := js "user.create";
                 service := js "firebaseauth.googleapis.com" |}
              emptyEmulator req
              (JObject [(js "eventType", JString (js "user.create"))])
              eq_refl ltac:(vm_compute; reflexivity) ltac:(vm_compute; reflexivity))
    as (em1 & out1 & H1 & H2).
  exists em1, out1, (JObject [(js "eventType", JString (js "user.create"))]).
  split; [exact H1 | exact H2].
Defined.

Lemma multicast_task_of_grouped_function_is_rejected_witness :
  Hub.handleBackgroundTrigger exampleService (js "firebaseio.com")
    exampleService_undefined
    (set_triggers (fun t => addTriggerRecord t MoreExamples.onUserCreate)
       emptyEmulator)
    (js "demo") (js "users.onCreate") [WorkerDone]
  = ([], Rejected (FirebaseError (js "No trigger with name users.onCreate"))).
Proof.
  apply (proj2 (multicast_task_of_grouped_function_is_rejected
                  exampleService (js "firebaseio.com") exampleService_undefined
                  MoreExamples.onUserCreate emptyEmulator (js "demo") [WorkerDone]
                  ltac:(vm_compute; discriminate) ltac:(vm_compute; discriminate)
                  ltac:(vm_compute; reflexivity))).
Defined.

Lemma project_check_accepts_prefix_of_instance_witness :
  (Hub.handleBackgroundTrigger exampleService (js "firebaseio.com")
     exampleService_undefined exampleEmulator (js "my") (js "onWrite")
     [WorkerDone]).2 = Resolved.
Proof.
  apply (project_check_accepts_prefix_of_instance exampleService
           (js "firebaseio.com") exampleService_undefined exampleEmulator
           (js "my") (js "onWrite")
           (js "myns") (js "/refs/foo/bar") [WorkerDone]
           {| def := onWrite; enabled := false |}
           {| resource := js "projects/_/instances/myns/refs/foo/bar";
              eventType := js "providers/google.firebase.database/eventTypes/ref.write";
              service := js "firebaseio.com" |});
    try (vm_compute; reflexivity).
  exists (js "ns"). reflexivity.
Defined.

Lemma runtime_started_before_project_check_witness :
  (Hub.handleBackgroundTrigger exampleService (js "firebaseio.com")
     exampleService_undefined exampleEmulator (js "other") (js "onWrite")
     [WorkerDone]).2
    = Rejected (ErrorBundle 404 None)
  /\ (exists rest,
        (Hub.handleBackgroundTrigger exampleService (js "firebaseio.com")
           exampleService_undefined exampleEmulator (js "other") (js "onWrite")
           [WorkerDone]).1
        = StartFunctionRuntime (js "onWrite") BACKGROUND :: rest)
  /\ Hub.handleBackgroundTrigger exampleService (js "firebaseio.com")
       exampleService_undefined exampleEmulator (js "demo") (js "constructor")
       [WorkerDone]
     = ([], Rejected TypeError).
Proof.
  split_and!; [vm_compute; reflexivity | |].
  - apply (proj1 (proj2 (runtime_started_before_project_check exampleService
                           (js "firebaseio.com") exampleService_undefined
                           exampleEmulator (js "other") (js "onWrite")
                           [WorkerDone]))).
    vm_compute. eauto.
  - apply (proj2 (proj2 (runtime_started_before_project_check exampleService
                           (js "firebaseio.com") exampleService_undefined
                           exampleEmulator (js "demo") (js "constructor")
                           [WorkerDone]))).
    vm_compute. reflexivity.
Defined.

Lemma background_task_answers_once_witness :
  responses
    (Hub.runBackgroundTask exampleService (js "firebaseio.com")
       exampleService_undefined exampleEmulator
       (backgroundRequest (js "{}")) (js "demo") (js "onWrite")
       [WorkerLog killedLog; WorkerDone; WorkerLog killedLog])
  = [Respond 200 JsonAcknowledged].
Proof.
  apply (proj1 (proj2 (background_task_answers_once exampleService
                         (js "firebaseio.com") exampleService_undefined
                         exampleEmulator
                         (backgroundRequest (js "{}")) (js "onWrite")
                         {| def := onWrite; enabled := false |}
                         [WorkerLog killedLog] [WorkerLog killedLog]
                         ltac:(vm_compute; reflexivity)
                         ltac:(repeat constructor; exists killedLog;
                               split; [reflexivity | vm_compute; discriminate])))).
Defined.

Lemma unknown_trigger_is_queued_then_fails_witness :
  Hub.runBackgroundTask exampleService (js "firebaseio.com")
    exampleService_undefined emptyEmulator
    (backgroundRequest (js "{}")) (js "demo") (js "onWrite") [WorkerDone]
  = [LogDebugAccepted (js "/functions/projects/demo/triggers/onWrite")
       (js "onWrite");
     SendStatusUndefined]
  /\ Hub.backgroundHandler Utf8.toString exampleParse
       (MoreExamples.requestFor (js "constructor") (js "{}")) emptyEmulator
     = (Ok tt, emptyEmulator,
        [LogDebugIgnoringBackgroundTrigger
           (js "/functions/projects/demo/triggers/constructor");
         Respond 204 NoBody]).
Proof.
  split.
  - apply (proj1 (unknown_trigger_is_queued_then_fails Utf8.toString exampleParse
                    exampleService (js "firebaseio.com") exampleService_undefined
                    (backgroundRequest (js "{}")) emptyEmulator (JObject [])
                    [WorkerDone] ltac:(vm_compute; reflexivity))).
    vm_compute. reflexivity.
  - apply (proj2 (unknown_trigger_is_queued_then_fails Utf8.toString exampleParse
                    exampleService (js "firebaseio.com") exampleService_undefined
                    (MoreExamples.requestFor (js "constructor") (js "{}"))
                    emptyEmulator (JObject []) [WorkerDone]
                    ltac:(vm_compute; reflexivity))).
    vm_compute. reflexivity.
Defined.

End HubMore.

(** ** Further properties: callable authentication *)

Module AuthHeaderFacts.

Import JSFacts AuthHeader.

Lemma padding_before_dot_app_padding (s : jsstring) (k : nat) :
  padding_before_dot (s ++ replicate k EQUALS) = padding_before_dot s.
Proof.
  induction s as [|c s IH]; simpl.
  - induction k as [|k IHk]; [done | exact IHk].
  - by rewrite IH.
Qed.

Lemma stripPadding_starts_with_dot (s post : jsstring) :
  stripPadding s = DOT :: post -> padding_before_dot s = true.
Proof.
  induction s as [|c s IH]; [done |]. simpl.
  destruct (bool_decide (c = EQUALS) && padding_before_dot s) eqn:E.
  - apply andb_true_iff in E as [Hc Hs]. apply bool_decide_eq_true_1 in Hc.
    subst c. intros _. rewrite bool_decide_eq_false_2 by done.
    by rewrite bool_decide_eq_true_2.
  - intros [= -> _]. by rewrite bool_decide_eq_true_2.
Qed.

(** X18.  The replacement of [tokenFromAuthHeader] removes [=] characters
    and nothing else, and its result holds no [=] directly before a [.]:
    all padding in front of a dot is gone after one pass. *)
Theorem stripPadding_removes_padding_before_dots (s : jsstring) :
  filter (fun c => c <> EQUALS) (stripPadding s)
    = filter (fun c => c <> EQUALS) s
  /\ (forall pre post, stripPadding s <> pre ++ EQUALS :: DOT :: post).
Proof.
  split.
  - induction s as [|c s IH]; [done |]. simpl.
    destruct (bool_decide (c = EQUALS) && padding_before_dot s) eqn:E.
    + apply andb_true_iff in E as [Hc _]. apply bool_decide_eq_true_1 in Hc.
      subst c. by rewrite filter_cons_False by (by intros []).
    + rewrite !filter_cons. by rewrite IH.
  - induction s as [|c s IH]; intros pre post; simpl.
    + by destruct pre.
    + destruct (bool_decide (c = EQUALS) && padding_before_dot s) eqn:E;
        [apply IH |].
      destruct pre as [|d pre]; simpl.
      * intros [= -> Hs]. apply stripPadding_starts_with_dot in Hs.
        by rewrite Hs, bool_decide_eq_true_2 in E.
      * intros [= _ Hs]. by apply IH in Hs.
Qed.

(** X19.  What the replacement leaves alone: a token without [=] is
    returned as it is (so the guard on [includes("=")] skips nothing that
    would change the token), and padding at the end of the token, which no
    dot follows, stays in place. *)
Theorem stripPadding_keeps_trailing_padding (s : jsstring) (k : nat) :
  (EQUALS ∉ s -> stripPadding s = s)
  /\ stripPadding (s ++ replicate k EQUALS)
     = stripPadding s ++ replicate k EQUALS.
Proof.
  split.
  - induction s as [|c s IH]; [done |]. rewrite not_elem_of_cons.
    intros [Hc Hs]. simpl. rewrite bool_decide_eq_false_2 by done.
    simpl. by rewrite IH.
  - induction s as [|c s IH]; simpl.
    + induction k as [|k IHk]; [done |]. simpl.
      pose proof (padding_before_dot_app_padding [] k) as Hk. simpl in Hk.
      rewrite Hk. simpl. by rewrite IHk.
    + rewrite padding_before_dot_app_padding.
      destruct (bool_decide (c = EQUALS) && padding_before_dot s);
        [done | by rewrite IH].
Qed.

Lemma idToken_Some (authHeader t : jsstring) :
  idToken authHeader = Some t ->
  exists r, authHeader = js "Bearer " ++ r /\ t = stripPadding r.
Proof.
  unfold idToken, bearer_match. intros H.
  apply fmap_Some in H as (r & H & ->).
  apply bind_Some in H as (r' & Hlit & H).
  apply lit_Some in Hlit. destruct (forallb dot r'); [|done].
  injection H as ->. eauto.
Qed.

Section Callable.

Variable claims : Type.
Variable decode : jsstring -> option claims.
Variable encode : claims -> jsstring.
Variable ORIGINAL_AUTH_HEADER : jsstring.
Variable CALLABLE_AUTH_HEADER : jsstring.

Local Abbreviation tokenFromAuthHeader := (AuthHeader.tokenFromAuthHeader claims decode).
Local Abbreviation callableHeaders :=
  (AuthHeader.callableHeaders claims decode encode ORIGINAL_AUTH_HEADER
     CALLABLE_AUTH_HEADER).

(** X20.  When a callable function is requested with an [Authorization]
    header from which a token is decoded, and the two internal header names
    differ from each other and from [authorization]: the forwarded headers
    hold no [authorization], hold the original header under the first
    internal name and the encoded context under the second, and are the
    incoming headers everywhere else. *)
Theorem callable_request_headers (trigger : EmulatedTriggerDefinition)
    (headers : gmap (list N) (list N)) (authHeader : jsstring) (token : claims) :
  ORIGINAL_AUTH_HEADER <> js "authorization" ->
  CALLABLE_AUTH_HEADER <> js "authorization" ->
  ORIGINAL_AUTH_HEADER <> CALLABLE_AUTH_HEADER ->
  isCallable trigger = true ->
  headers !! js "authorization" = Some authHeader ->
  tokenFromAuthHeader authHeader = Some token ->
  let headers' := callableHeaders trigger headers in
  headers' !! js "authorization" = None
  /\ headers' !! ORIGINAL_AUTH_HEADER = Some authHeader
  /\ headers' !! CALLABLE_AUTH_HEADER = Some (encode token)
  /\ (forall k, k <> js "authorization" -> k <> ORIGINAL_AUTH_HEADER ->
        k <> CALLABLE_AUTH_HEADER -> headers' !! k = headers !! k).
Proof.
  intros Ho Hc Hoc Hcallable Hauth Htoken headers'. subst headers'.
  unfold AuthHeader.callableHeaders. rewrite Hauth, Hcallable.
  destruct authHeader as [|c h].
  { unfold AuthHeader.tokenFromAuthHeader in Htoken.
    apply bind_Some in Htoken as (t & Ht & _).
    apply idToken_Some in Ht as (r & Hr & _). by vm_compute in Hr. }
  rewrite Htoken. split_and!.
  - rewrite lookup_insert_ne by done. apply lookup_delete_eq.
  - rewrite lookup_insert_ne, lookup_delete_ne by done.
    apply lookup_insert_eq.
  - apply lookup_insert_eq.
  - intros k Hk1 Hk2 Hk3.
    by rewrite lookup_insert_ne, lookup_delete_ne, lookup_insert_ne.
Qed.

(** X21.  The headers are forwarded as they came in whenever the
    [Authorization] header does not start with [Bearer ] in exactly this
    spelling, for every trigger and every token decoder; in particular a
    context header that the client sent itself is then passed on. *)
Theorem headers_untouched_without_bearer (trigger : EmulatedTriggerDefinition)
    (headers : gmap (list N) (list N)) :
  (forall authHeader, headers !! js "authorization" = Some authHeader ->
     ~ js "Bearer " `prefix_of` authHeader) ->
  callableHeaders trigger headers = headers.
Proof.
  intros Hbearer. unfold AuthHeader.callableHeaders.
  destruct (headers !! js "authorization") as [[|c h]|] eqn:Hauth; try done.
  destruct (isCallable trigger); [|done].
  destruct (tokenFromAuthHeader (c :: h)) as [token|] eqn:Htoken; [|done].
  unfold AuthHeader.tokenFromAuthHeader in Htoken.
  apply bind_Some in Htoken as (t & Ht & _).
  apply idToken_Some in Ht as (r & Hr & _).
  destruct (Hbearer (c :: h) eq_refl). by exists r.
Qed.

End Callable.

Lemma callable_request_headers_witness :
  let headers : gmap (list N) (list N) :=
    {[ js "authorization" := js "Bearer a==.b=.c=" ]} in
  let headers' :=
    AuthHeader.callableHeaders jsstring (fun t => Some t) (fun t => t)
      (js "x-original-auth") (js "x-callable-context-auth")
      MoreExamples.callMe headers in
  headers' !! js "authorization" = None
  /\ headers' !! js "x-original-auth" = Some (js "Bearer a==.b=.c=")
  /\ headers' !! js "x-callable-context-auth" = Some (js "a.b.c=").
Proof.
  intros headers headers'.
  destruct (callable_request_headers jsstring (fun t => Some t) (fun t => t)
              (js "x-original-auth") (js "x-callable-context-auth")
              MoreExamples.callMe headers (js "Bearer a==.b=.c=") (js "a.b.c=")
              ltac:(vm_compute; discriminate) ltac:(vm_compute; discriminate)
              ltac:(vm_compute; discriminate) ltac:(vm_compute; reflexivity)
              ltac:(vm_compute; reflexivity) ltac:(vm_compute; reflexivity))
    as (H1 & H2 & H3 & _).
  split_and!; [exact H1 | exact H2 | exact H3].
Defined.

Lemma headers_untouched_without_bearer_witness :
  let headers : gmap (list N) (list N) :=
    {[ js "authorization" := js "bearer a.b.c";
       js "x-callable-context-auth" := js "forged" ]} in
  AuthHeader.callableHeaders jsstring (fun t => Some t) (fun t => t)
    (js "x-original-auth") (js "x-callable-context-auth")
    MoreExamples.callMe headers = headers.
Proof.
  intros headers.
  apply (headers_untouched_without_bearer jsstring (fun t => Some t) (fun t => t)
           (js "x-original-auth") (js "x-callable-context-auth")
           MoreExamples.callMe headers).
  intros authHeader Hauth.
  assert (authHeader = js "bearer a.b.c") as ->.
  { apply (inj Some). rewrite <- Hauth. vm_compute. reflexivity. }
  intros [r Hr]. vm_compute in Hr. discriminate Hr.
Defined.

Lemma stripPadding_keeps_trailing_padding_witness :
  stripPadding (js "a.b.c") = js "a.b.c".
Proof.
  apply (proj1 (stripPadding_keeps_trailing_padding (js "a.b.c") 0)).
  DiscoveryMore.decide_by_computation.
Defined.

End AuthHeaderFacts.

(** ** Further properties: the choice of the node binary *)

Module NodeVersionFacts.

Import JSFacts NodeVersion.

Lemma major_no_dot (s : jsstring) : AuthHeader.DOT ∉ major s.
Proof.
  unfold major. pose proof (LogDecoderMore.split_Forall_no_sep AuthHeader.DOT s) as H.
  destruct (split AuthHeader.DOT s) as [|l ls]; simpl.
  - apply not_elem_of_nil.
  - by apply Forall_cons in H as [H _].
Qed.

Lemma major_prefix (m rest : jsstring) :
  AuthHeader.DOT ∉ m -> major (m ++ AuthHeader.DOT :: rest) = m.
Proof.
  intros Hm. unfold major. by rewrite DiscoveryMore.split_no_sep_prefix.
Qed.

(** X22.  The requested version is compared as a whole with major versions.
    When no version is forced and [engines.node] of the package holds a dot
    (a full version such as 10.15.3), it equals neither the major version of
    the local install nor that of the host: the host binary is used and the
    mismatch is reported, whatever is installed. *)
Theorem dotted_engines_version_never_matches (p : Probe) (e : jsstring) :
  engines_node p = Some e ->
  AuthHeader.DOT ∈ e ->
  askInstallNodeVersion p None
    = (execPath p, [WarnMismatch e (major (versions_node p))]).
Proof.
  intros He Hdot. unfold askInstallNodeVersion. rewrite He.
  destruct e as [|c e]; [by apply elem_of_nil in Hdot |]. cbn [truthy negb andb default].
  rewrite bool_decide_eq_false_2.
  - rewrite bool_decide_eq_false_2; [done |].
    intros Heq. apply (major_no_dot (versions_node p)). by rewrite <- Heq.
  - destruct (localNodeOutput p) as [out|]; intros Heq.
    + apply (major_no_dot (drop 1 out)). by rewrite <- Heq.
    + change (c :: e = js "0") in Heq. rewrite Heq in Hdot. revert Hdot.
      DiscoveryMore.decide_by_computation.
Qed.

Lemma dotted_engines_version_never_matches_witness :
  let p := {| engines_node := Some (js "10.15.3"); execPath := js "/usr/bin/node";
              versions_node := js "10.15.3";
              localNodePath := js "functions/node_modules/.bin/node";
              localNodeOutput := Some (js "v10.15.3") |} in
  askInstallNodeVersion p None
    = (js "/usr/bin/node", [WarnMismatch (js "10.15.3") (js "10")]).
Proof.
  intros p.
  apply (dotted_engines_version_never_matches p (js "10.15.3") eq_refl).
  DiscoveryMore.decide_by_computation.
Defined.

(** X23.  The local install is preferred to the host.  When the binary under
    [node_modules] reports a version whose major part, after the first
    character of the output, is the requested version, that binary is
    chosen, whatever the version of the host is; the requested version is
    [engines.node] of the package, or the forced major version when one is
    given. *)
Theorem local_install_is_preferred (p : Probe) (m rest : jsstring) (v : N) :
  AuthHeader.DOT ∉ m ->
  m <> [] ->
  localNodeOutput p = Some (v :: m ++ AuthHeader.DOT :: rest) ->
  (engines_node p = Some m ->
     askInstallNodeVersion p None
       = (localNodePath p, [SuccessLocalCache m]))
  /\ (forall n, n <> 0%N -> js (pretty n) = m ->
        askInstallNodeVersion p (Some n)
          = (localNodePath p, [SuccessLocalCache m])).
Proof.
  intros Hm Hne Hout. unfold askInstallNodeVersion. rewrite Hout.
  cbn [drop]. rewrite !drop_0, !major_prefix by done. split.
  - intros ->. destruct m as [|c m]; [done |]. cbn [truthy negb andb default].
    by rewrite bool_decide_eq_true_2.
  - intros n Hn <-. destruct n as [|n]; [done |].
    rewrite (bool_decide_eq_true_2 (is_Some (Some _))) by eauto.
    rewrite andb_false_r. by rewrite bool_decide_eq_true_2.
Qed.

Lemma local_install_is_preferred_witness :
  let p := {| engines_node := Some (js "8"); execPath := js "/usr/bin/node";
              versions_node := js "10.15.3";
              localNodePath := js "functions/node_modules/.bin/node";
              localNodeOutput := Some (js "v8.16.0") |} in
  askInstallNodeVersion p None
    = (js "functions/node_modules/.bin/node", [SuccessLocalCache (js "8")]).
Proof.
  intros p.
  apply (proj1 (local_install_is_preferred p (js "8") (js "16.0") 118%N
                  ltac:(DiscoveryMore.decide_by_computation)
                  ltac:(vm_compute; discriminate)
                  ltac:(vm_compute; reflexivity))).
  reflexivity.
Defined.

End NodeVersionFacts.

(** ** Further properties: the environment of a runtime *)

Module RuntimeEnvFacts.

Import RuntimeEnv.

(** X24.  Where the credentials variable of a runtime comes from.  The
    value of the process environment wins, also when it is the empty string;
    without one, the value of the emulator arguments; without that, the
    default credential path when there is a non-empty one; otherwise the
    variable is not set. *)
Theorem runtime_credentials_precedence (nodeBinary : jsstring)
    (processEnv argsEnv : env_t) (defaultCredPath : option jsstring) :
  runtimeEnv nodeBinary processEnv argsEnv defaultCredPath !! GAC
  = match processEnv !! GAC, argsEnv !! GAC with
    | Some v, _ => Some v
    | None, Some v => Some v
    | None, None => if truthy defaultCredPath then defaultCredPath else None
    end.
Proof.
  unfold runtimeEnv, spawnEnv, start, spread, getCredentialsEnvironment.
  rewrite !lookup_union.
  destruct (processEnv !! GAC) as [[|c v]|] eqn:Hp; cbn [fst];
    [by rewrite union_Some_l | by rewrite union_Some_l |].
  rewrite (left_id_L None _).
  destruct (argsEnv !! GAC) as [v|] eqn:Ha; [by rewrite !union_Some_l |].
  rewrite (left_id_L None _).
  assert (({[js "node" := nodeBinary]} : env_t) !! GAC = None) as ->
    by (vm_compute; reflexivity).
  rewrite (right_id_L None _).
  destruct defaultCredPath as [[|c v]|]; cbn [fst truthy];
    [apply lookup_empty | apply lookup_singleton_eq | apply lookup_empty].
Qed.

End RuntimeEnvFacts.
